(** * HTTP ingress adapter (trigger/gin): shallow embedding and properties

    The development follows the two source files of the trigger:

    - [server.go]: the [Server] handle with [NewServer], the [TLS] and
      [Timeouts] options, [Start], [Stop], [validateStart], [validateInit];
    - the trigger file: [newGinHandler], the per-route request handler that
      decodes the body, calls the flow handler and renders its reply, and the
      trigger around it: [Factory.New], [Initialize], [Start], [Stop].

    The Go standard library pieces the handler leans on (the byte scanner of
    [encoding/json], [net/http]'s header map, [http.Error], gin's response
    writer) are modelled in their own modules, and what stays outside the
    program (the flow handler, number and string conversion of JSON literals,
    the form parser, the JSON encoder) is a field of the class [Externals].
    Calls to the logger are left out. *)

From Stdlib Require Import ZArith Ascii String List Bool Lia DecimalString.
From stdpp Require Import base option list strings gmap.

Local Open Scope Z_scope.

(** ** Go [error] values *)

(** The message of an [encoding/json] [SyntaxError]. *)
Inductive syntaxMsg : Type :=
| InvalidCharacter (c : ascii) (context : string)
| UnexpectedEndOfJSONInput.

(** Error values, as far as the program can tell them apart: the sentinels
    [io.EOF], [io.ErrUnexpectedEOF], [context.DeadlineExceeded] and
    [http.ErrServerClosed] (compared with [==] or [errors.Is] in the source),
    the syntax errors of the JSON scanner, and every other error by its
    text. *)
Inductive error : Type :=
| EOF
| ErrUnexpectedEOF
| SyntaxError (msg : syntaxMsg) (Offset : Z)
| DeadlineExceeded
| ErrServerClosed
| ErrorString (text : string).

Definition error_eqb (a b : error) : bool :=
  match a, b with
  | EOF, EOF => true
  | ErrUnexpectedEOF, ErrUnexpectedEOF => true
  | DeadlineExceeded, DeadlineExceeded => true
  | ErrServerClosed, ErrServerClosed => true
  | _, _ => false
  end.

(** ** Bytes *)

Definition byte_between (lo hi c : ascii) : bool :=
  (N_of_ascii lo <=? N_of_ascii c)%N && (N_of_ascii c <=? N_of_ascii hi)%N.

Definition isDigit (c : ascii) : bool := byte_between "0" "9" c.

Definition isHex (c : ascii) : bool :=
  byte_between "0" "9" c || byte_between "a" "f" c || byte_between "A" "F" c.

(** ** The scanner of [encoding/json] *)

Module Json.

(** [scanner.step] is a function pointer in Go; here it is the name of the
    state function. *)
Inductive stepFn : Type :=
| stateBeginValueOrEmpty | stateBeginValue | stateBeginStringOrEmpty
| stateBeginString | stateEndValue | stateEndTop
| stateInString | stateInStringEsc | stateInStringEscU | stateInStringEscU1
| stateInStringEscU12 | stateInStringEscU123
| stateNeg | state1 | state0 | stateDot | stateDot0 | stateE | stateESign
| stateE0
| stateT | stateTr | stateTru
| stateF | stateFa | stateFal | stateFals
| stateN | stateNu | stateNul
| stateError.

Inductive scanCode : Type :=
| scanContinue | scanBeginLiteral | scanBeginObject | scanObjectKey
| scanObjectValue | scanEndObject | scanBeginArray | scanArrayValue
| scanEndArray | scanSkipSpace
| scanEnd | scanError.

Inductive parseKind : Type :=
| parseObjectKey | parseObjectValue | parseArrayValue.

Definition maxNestingDepth : Z := 10000.

(** [parseState] is a Go slice used as a stack; the head of the list is the
    last element of the slice. *)
Record scanner : Type := mkScanner {
  step : stepFn;
  endTop : bool;
  parseState : list parseKind;
  err : option error;
  bytes : Z
}.

Definition set_step (f : stepFn) (s : scanner) : scanner :=
  mkScanner f (endTop s) (parseState s) (err s) (bytes s).
Definition set_endTop (b : bool) (s : scanner) : scanner :=
  mkScanner (step s) b (parseState s) (err s) (bytes s).
Definition set_parseState (ps : list parseKind) (s : scanner) : scanner :=
  mkScanner (step s) (endTop s) ps (err s) (bytes s).
Definition set_err (e : option error) (s : scanner) : scanner :=
  mkScanner (step s) (endTop s) (parseState s) e (bytes s).
Definition set_bytes (n : Z) (s : scanner) : scanner :=
  mkScanner (step s) (endTop s) (parseState s) (err s) n.

(** [scanner.reset]; a fresh scanner has [bytes = 0]. *)
Definition reset (s : scanner) : scanner :=
  mkScanner stateBeginValue false [] None (bytes s).

Definition new_scanner : scanner := mkScanner stateBeginValue false [] None 0.

(** [scanner.error] *)
Definition error_ (s : scanner) (c : ascii) (context : string)
  : scanner * scanCode :=
  (set_err (Some (SyntaxError (InvalidCharacter c context) (bytes s)))
     (set_step stateError s), scanError).

(** [scanner.pushParseState] *)
Definition pushParseState (s : scanner) (c : ascii) (newParseState : parseKind)
    (successState : scanCode) : scanner * scanCode :=
  let s := set_parseState (newParseState :: parseState s) s in
  if Z.of_nat (length (parseState s)) <=? maxNestingDepth
  then (s, successState)
  else error_ s c "exceeded max depth".

(** [scanner.popParseState] *)
Definition popParseState (s : scanner) : scanner :=
  let s := set_parseState (tail (parseState s)) s in
  match parseState s with
  | [] => set_endTop true (set_step stateEndTop s)
  | _ => set_step stateEndValue s
  end.

(** The byte of the double quote. *)
Definition quote : ascii := "034".

Definition isSpace (c : ascii) : bool :=
  Ascii.eqb c " " || Ascii.eqb c "009" || Ascii.eqb c "013" || Ascii.eqb c "010".

Definition do_stateEndTop (s : scanner) (c : ascii) : scanner * scanCode :=
  if isSpace c then (s, scanEnd)
  else (fst (error_ s c "after top-level value"), scanEnd).

Definition do_stateEndValue (s : scanner) (c : ascii) : scanner * scanCode :=
  match parseState s with
  | [] => do_stateEndTop (set_endTop true (set_step stateEndTop s)) c
  | ps :: rest =>
      if isSpace c then (set_step stateEndValue s, scanSkipSpace)
      else match ps with
      | parseObjectKey =>
          if Ascii.eqb c ":" then
            (set_step stateBeginValue
               (set_parseState (parseObjectValue :: rest) s), scanObjectKey)
          else error_ s c "after object key"
      | parseObjectValue =>
          if Ascii.eqb c "," then
            (set_step stateBeginString
               (set_parseState (parseObjectKey :: rest) s), scanObjectValue)
          else if Ascii.eqb c "}" then (popParseState s, scanEndObject)
          else error_ s c "after object key:value pair"
      | parseArrayValue =>
          if Ascii.eqb c "," then (set_step stateBeginValue s, scanArrayValue)
          else if Ascii.eqb c "]" then (popParseState s, scanEndArray)
          else error_ s c "after array element"
      end
  end.

Definition do_stateBeginValue (s : scanner) (c : ascii) : scanner * scanCode :=
  if isSpace c then (s, scanSkipSpace)
  else if Ascii.eqb c "{" then
    pushParseState (set_step stateBeginStringOrEmpty s) c parseObjectKey
      scanBeginObject
  else if Ascii.eqb c "[" then
    pushParseState (set_step stateBeginValueOrEmpty s) c parseArrayValue
      scanBeginArray
  else if Ascii.eqb c quote then (set_step stateInString s, scanBeginLiteral)
  else if Ascii.eqb c "-" then (set_step stateNeg s, scanBeginLiteral)
  else if Ascii.eqb c "0" then (set_step state0 s, scanBeginLiteral)
  else if Ascii.eqb c "t" then (set_step stateT s, scanBeginLiteral)
  else if Ascii.eqb c "f" then (set_step stateF s, scanBeginLiteral)
  else if Ascii.eqb c "n" then (set_step stateN s, scanBeginLiteral)
  else if byte_between "1" "9" c then (set_step state1 s, scanBeginLiteral)
  else error_ s c "looking for beginning of value".

Definition do_stateBeginValueOrEmpty (s : scanner) (c : ascii)
  : scanner * scanCode :=
  if isSpace c then (s, scanSkipSpace)
  else if Ascii.eqb c "]" then do_stateEndValue s c
  else do_stateBeginValue s c.

Definition do_stateBeginString (s : scanner) (c : ascii) : scanner * scanCode :=
  if isSpace c then (s, scanSkipSpace)
  else if Ascii.eqb c quote then (set_step stateInString s, scanBeginLiteral)
  else error_ s c "looking for beginning of object key string".

Definition do_stateBeginStringOrEmpty (s : scanner) (c : ascii)
  : scanner * scanCode :=
  if isSpace c then (s, scanSkipSpace)
  else if Ascii.eqb c "}" then
    do_stateEndValue
      (set_parseState (parseObjectValue :: tail (parseState s)) s) c
  else do_stateBeginString s c.

Definition do_stateInString (s : scanner) (c : ascii) : scanner * scanCode :=
  if Ascii.eqb c quote then (set_step stateEndValue s, scanContinue)
  else if Ascii.eqb c "\" then (set_step stateInStringEsc s, scanContinue)
  else if (N_of_ascii c <? 32)%N then error_ s c "in string literal"
  else (s, scanContinue).

Definition do_stateInStringEsc (s : scanner) (c : ascii) : scanner * scanCode :=
  if Ascii.eqb c "b" || Ascii.eqb c "f" || Ascii.eqb c "n" || Ascii.eqb c "r"
     || Ascii.eqb c "t" || Ascii.eqb c "\" || Ascii.eqb c "/"
     || Ascii.eqb c quote
  then (set_step stateInString s, scanContinue)
  else if Ascii.eqb c "u" then (set_step stateInStringEscU s, scanContinue)
  else error_ s c "in string escape code".

(** [stateInStringEscU], [...U1], [...U12], [...U123] differ in the next state
    only. *)
Definition do_hex (next : stepFn) (s : scanner) (c : ascii)
  : scanner * scanCode :=
  if isHex c then (set_step next s, scanContinue)
  else error_ s c "in \u hexadecimal character escape".

Definition do_stateNeg (s : scanner) (c : ascii) : scanner * scanCode :=
  if Ascii.eqb c "0" then (set_step state0 s, scanContinue)
  else if byte_between "1" "9" c then (set_step state1 s, scanContinue)
  else error_ s c "in numeric literal".

Definition do_state0 (s : scanner) (c : ascii) : scanner * scanCode :=
  if Ascii.eqb c "." then (set_step stateDot s, scanContinue)
  else if Ascii.eqb c "e" || Ascii.eqb c "E" then (set_step stateE s, scanContinue)
  else do_stateEndValue s c.

Definition do_state1 (s : scanner) (c : ascii) : scanner * scanCode :=
  if isDigit c then (set_step state1 s, scanContinue)
  else do_state0 s c.

Definition do_stateDot (s : scanner) (c : ascii) : scanner * scanCode :=
  if isDigit c then (set_step stateDot0 s, scanContinue)
  else error_ s c "after decimal point in numeric literal".

Definition do_stateDot0 (s : scanner) (c : ascii) : scanner * scanCode :=
  if isDigit c then (s, scanContinue)
  else if Ascii.eqb c "e" || Ascii.eqb c "E" then (set_step stateE s, scanContinue)
  else do_stateEndValue s c.

Definition do_stateESign (s : scanner) (c : ascii) : scanner * scanCode :=
  if isDigit c then (set_step stateE0 s, scanContinue)
  else error_ s c "in exponent of numeric literal".

Definition do_stateE (s : scanner) (c : ascii) : scanner * scanCode :=
  if Ascii.eqb c "+" || Ascii.eqb c "-" then (set_step stateESign s, scanContinue)
  else do_stateESign s c.

Definition do_stateE0 (s : scanner) (c : ascii) : scanner * scanCode :=
  if isDigit c then (s, scanContinue)
  else do_stateEndValue s c.

(** The states inside [true], [false] and [null]: one expected byte, one next
    state, one error context. *)
Definition do_expect (want : ascii) (next : stepFn) (context : string)
    (s : scanner) (c : ascii) : scanner * scanCode :=
  if Ascii.eqb c want then (set_step next s, scanContinue)
  else error_ s c context.

(** Calling [s.step(s, c)]. *)
Definition apply_step (s : scanner) (c : ascii) : scanner * scanCode :=
  match step s with
  | stateBeginValueOrEmpty => do_stateBeginValueOrEmpty s c
  | stateBeginValue => do_stateBeginValue s c
  | stateBeginStringOrEmpty => do_stateBeginStringOrEmpty s c
  | stateBeginString => do_stateBeginString s c
  | stateEndValue => do_stateEndValue s c
  | stateEndTop => do_stateEndTop s c
  | stateInString => do_stateInString s c
  | stateInStringEsc => do_stateInStringEsc s c
  | stateInStringEscU => do_hex stateInStringEscU1 s c
  | stateInStringEscU1 => do_hex stateInStringEscU12 s c
  | stateInStringEscU12 => do_hex stateInStringEscU123 s c
  | stateInStringEscU123 => do_hex stateInString s c
  | stateNeg => do_stateNeg s c
  | state1 => do_state1 s c
  | state0 => do_state0 s c
  | stateDot => do_stateDot s c
  | stateDot0 => do_stateDot0 s c
  | stateE => do_stateE s c
  | stateESign => do_stateESign s c
  | stateE0 => do_stateE0 s c
  | stateT => do_expect "r" stateTr "in literal true (expecting 'r')" s c
  | stateTr => do_expect "u" stateTru "in literal true (expecting 'u')" s c
  | stateTru => do_expect "e" stateEndValue "in literal true (expecting 'e')" s c
  | stateF => do_expect "a" stateFa "in literal false (expecting 'a')" s c
  | stateFa => do_expect "l" stateFal "in literal false (expecting 'l')" s c
  | stateFal => do_expect "s" stateFals "in literal false (expecting 's')" s c
  | stateFals => do_expect "e" stateEndValue "in literal false (expecting 'e')" s c
  | stateN => do_expect "u" stateNu "in literal null (expecting 'u')" s c
  | stateNu => do_expect "l" stateNul "in literal null (expecting 'l')" s c
  | stateNul => do_expect "l" stateEndValue "in literal null (expecting 'l')" s c
  | stateError => (s, scanError)
  end.

(** [scanner.eof] *)
Definition eof (s : scanner) : scanner * scanCode :=
  match err s with
  | Some _ => (s, scanError)
  | None =>
      if endTop s then (s, scanEnd)
      else
        let s := fst (apply_step s " ") in
        if endTop s then (s, scanEnd)
        else match err s with
             | Some _ => (s, scanError)
             | None =>
                 (set_err (Some (SyntaxError UnexpectedEndOfJSONInput (bytes s))) s,
                  scanError)
             end
  end.

Definition is_scanError (r : scanCode) : bool :=
  match r with scanError => true | _ => false end.
Definition is_scanEnd (r : scanCode) : bool :=
  match r with scanEnd => true | _ => false end.

Definition the_err (s : scanner) : error :=
  default (ErrorString EmptyString) (err s).

(** The loop of [checkValid] over the remaining bytes. *)
Fixpoint checkValid_loop (data : list ascii) (scan : scanner)
  : scanner * option error :=
  match data with
  | [] =>
      let '(scan, r) := eof scan in
      if is_scanError r then (scan, Some (the_err scan)) else (scan, None)
  | c :: data =>
      let scan := set_bytes (bytes scan + 1) scan in
      let '(scan, r) := apply_step scan c in
      if is_scanError r then (scan, Some (the_err scan))
      else checkValid_loop data scan
  end.

(** [checkValid(data, scan)]: [None] is Go's [nil]. *)
Definition checkValid (data : list ascii) (scan : scanner) : option error :=
  snd (checkValid_loop data (reset scan)).

(** [nonSpace] of stream.go *)
Definition nonSpace (b : list ascii) : bool :=
  existsb (fun c => negb (isSpace c)) b.

(** [Decoder.readValue] on a decoder that has not decoded anything yet
    ([scanp = 0]), reading from a stream that delivers [data] and then ends
    with [rerr] ([EOF] for a clean end). The refills of the buffer do not show
    in the result, so the bytes are scanned from one list; [scanp] counts the
    bytes already scanned. *)
Fixpoint readValue_loop (buf : list ascii) (data : list ascii) (rerr : error)
    (scan : scanner) (scanp : nat) : scanner * (nat + error) :=
  match data with
  | [] =>
      if error_eqb rerr EOF then
        let '(scan1, r) := apply_step scan " " in
        if is_scanEnd r then (scan1, inl scanp)
        else if nonSpace buf then (scan1, inr ErrUnexpectedEOF)
        else (scan1, inr rerr)
      else (scan, inr rerr)
  | c :: data =>
      let scan := set_bytes (bytes scan + 1) scan in
      let '(scan, r) := apply_step scan c in
      match r with
      | scanEnd => (set_bytes (bytes scan - 1) scan, inl scanp)
      | scanEndObject | scanEndArray =>
          let '(scan, r') := do_stateEndValue scan " " in
          if is_scanEnd r' then (scan, inl (S scanp))
          else readValue_loop buf data rerr scan (S scanp)
      | scanError => (scan, inr (the_err scan))
      | _ => readValue_loop buf data rerr scan (S scanp)
      end
  end.

Definition readValue (data : list ascii) (rerr : error) : nat + error :=
  snd (readValue_loop data data rerr (reset new_scanner) 0).

(** *** Predicates on scanner states *)

(** The scanner only ever records syntax errors. *)
Definition syntax_only (s : scanner) : Prop :=
  err s = None ∨ exists m o, err s = Some (SyntaxError m o).

(** The scanner is inside a top-level value that has not ended. *)
Definition live (s : scanner) : Prop :=
  endTop s = false ∧ step s ≠ stateEndTop ∧ step s ≠ stateError ∧ err s = None.

(** The scanner has hit an error. *)
Definition dead (s : scanner) : Prop :=
  step s = stateError ∧ err s ≠ None.

(** The states in which a number literal may end. *)
Definition number_state (f : stepFn) : bool :=
  match f with
  | state0 | state1 | stateDot0 | stateE0 => true
  | _ => false
  end.

(** The bytes that can extend a number literal. *)
Definition continues_number (c : ascii) : bool :=
  isDigit c || Ascii.eqb c "." || Ascii.eqb c "e" || Ascii.eqb c "E".

(** The results of a step after which [readValue] keeps scanning. *)
Definition continues (r : scanCode) : bool :=
  match r with
  | scanEnd | scanEndObject | scanEndArray | scanError => false
  | _ => true
  end.

End Json.

(** ** [net/http]: the header map *)

Module Header.

(** [http.Header] is [map[string][]string]. *)
Abbreviation t := (gmap string (list string)).

(** [validHeaderFieldByte]: the token bytes of RFC 7230. *)
Definition validHeaderFieldByte (c : ascii) : bool :=
  byte_between "a" "z" c || byte_between "A" "Z" c || isDigit c
  || existsb (Ascii.eqb c)
       (list_ascii_of_string "!#$%&'*+-.^_`|~").

Definition toUpper (c : ascii) : ascii :=
  if byte_between "a" "z" c then ascii_of_N (N_of_ascii c - 32) else c.
Definition toLower (c : ascii) : ascii :=
  if byte_between "A" "Z" c then ascii_of_N (N_of_ascii c + 32) else c.

(** The second loop of [canonicalMIMEHeaderKey]: upper case for the first
    letter and after each dash, lower case elsewhere. *)
Fixpoint canonicalize (upper : bool) (a : list ascii) : list ascii :=
  match a with
  | [] => []
  | c :: a =>
      let c := if upper then toUpper c else toLower c in
      c :: canonicalize (Ascii.eqb c "-") a
  end.

(** [textproto.CanonicalMIMEHeaderKey]: a key with a byte that is not a token
    byte is returned as it is. *)
Definition CanonicalMIMEHeaderKey (s : string) : string :=
  let a := list_ascii_of_string s in
  if forallb validHeaderFieldByte a
  then string_of_list_ascii (canonicalize true a)
  else s.

Definition Get (h : t) (key : string) : string :=
  match h !! CanonicalMIMEHeaderKey key with
  | Some (v :: _) => v
  | _ => EmptyString
  end.

Definition Set_ (h : t) (key value : string) : t :=
  <[CanonicalMIMEHeaderKey key := [value]]> h.

Definition Del (h : t) (key : string) : t :=
  delete (CanonicalMIMEHeaderKey key) h.

End Header.

(** ** gin's response writer over [net/http]'s *)

Module Writer.

Definition noWritten : Z := -1.
Definition defaultStatus : Z := 200.

(** gin's [responseWriter] ([size], [status]) together with what the wrapped
    [http.ResponseWriter] holds: the live header map, the status line and
    header snapshot sent by its [WriteHeader] ([wire], empty until then) and
    the body bytes handed to its [Write]. *)
Record t : Type := mk {
  header : Header.t;
  status : Z;
  size : Z;
  wire : option (Z * Header.t);
  body : list ascii
}.

(** [responseWriter.reset] over a new response. *)
Definition fresh : t := mk ∅ defaultStatus noWritten None [].

Definition set_header (h : Header.t) (w : t) : t :=
  mk h (status w) (size w) (wire w) (body w).

Definition Written (w : t) : bool := negb (size w =? noWritten).

Definition WriteHeader (code : Z) (w : t) : t :=
  if (0 <? code) && negb (status w =? code) then
    if Written w then w
    else mk (header w) code (size w) (wire w) (body w)
  else w.

(** The wrapped writer's [WriteHeader]: the first call fixes the status line
    and the headers. *)
Definition wire_WriteHeader (code : Z) (w : t) : t :=
  match wire w with
  | Some _ => w
  | None => mk (header w) (status w) (size w) (Some (code, header w)) (body w)
  end.

Definition WriteHeaderNow (w : t) : t :=
  if Written w then w
  else wire_WriteHeader (status w)
         (mk (header w) (status w) 0 (wire w) (body w)).

(** [responseWriter.Write]: the bytes are appended to the body; a transport
    error would only be logged by the caller. *)
Definition Write (data : list ascii) (w : t) : t :=
  let w := WriteHeaderNow w in
  mk (header w) (status w) (size w + Z.of_nat (length data)) (wire w)
     (body w ++ data).

(** Nothing of the response has been sent yet. *)
Definition unwritten (w : t) : Prop := size w = noWritten ∧ wire w = None.

End Writer.

(** [http.Error], as of Go 1.23: it drops [Content-Length], sets the two
    headers, writes the status and then the text and a newline. *)
Definition http_Error (w : Writer.t) (error : string) (code : Z) : Writer.t :=
  let h := Writer.header w in
  let h := Header.Del h "Content-Length" in
  let h := Header.Set_ h "Content-Type" "text/plain; charset=utf-8" in
  let h := Header.Set_ h "X-Content-Type-Options" "nosniff" in
  let w := Writer.set_header h w in
  let w := Writer.WriteHeader code w in
  Writer.Write (list_ascii_of_string error ++ ["010"%char]) w.

Definition StatusOK : Z := 200.
Definition StatusBadRequest : Z := 400.

(** ** The server handle of [server.go] *)

Module Server.

Definition httpDefaultAddr : string := ":8080".
Definition httpDefaultTlsAddr : string := ":8443".

(** [time.Duration] counts nanoseconds. *)
Definition Second : Z := 1000000000.
Definition httpDefaultReadTimeout : Z := 60 * Second.
Definition httpDefaultWriteTimeout : Z := 60 * Second.

(** The grace period [Stop] gives to [Shutdown]. *)
Definition stopTimeout : Z := 5 * Second.

Section WithHandler.

(** [http.Handler]: the router the server is built over. *)
Variable Handler : Type.

(** The fields of [http.Server] the program sets. *)
Record httpServer : Type := mkHttpServer {
  Addr : string;
  Handler_ : Handler;
  ReadTimeout : Z;
  WriteTimeout : Z
}.

Record Server : Type := mkServer {
  running : bool;
  srv : httpServer;
  tlsEnabled : bool;
  certFile : string;
  keyFile : string
}.

Definition set_running (b : bool) (s : Server) : Server :=
  mkServer b (srv s) (tlsEnabled s) (certFile s) (keyFile s).
Definition set_Addr (a : string) (s : Server) : Server :=
  mkServer (running s)
    (mkHttpServer a (Handler_ (srv s)) (ReadTimeout (srv s)) (WriteTimeout (srv s)))
    (tlsEnabled s) (certFile s) (keyFile s).

(** [type Option], a function that updates the [Server] it is given. *)
Definition Option : Type := Server -> Server.

(** [TLS(certFile, keyFile)] *)
Definition TLS (certFile keyFile : string) : Option := fun s =>
  let s := mkServer (running s) (srv s) true certFile keyFile in
  if String.eqb (Addr (srv s)) EmptyString then set_Addr httpDefaultTlsAddr s
  else s.

(** [Timeouts(readTimeout, writeTimeout)] *)
Definition Timeouts (readTimeout writeTimeout : Z) : Option := fun s =>
  mkServer (running s)
    (mkHttpServer (Addr (srv s)) (Handler_ (srv s)) readTimeout writeTimeout)
    (tlsEnabled s) (certFile s) (keyFile s).

(** The options the package offers. *)
Inductive package_option : Option -> Prop :=
| is_TLS certFile keyFile : package_option (TLS certFile keyFile)
| is_Timeouts readTimeout writeTimeout :
    package_option (Timeouts readTimeout writeTimeout).

Definition tls_option (opt : Option) : Prop :=
  exists certFile keyFile, opt = TLS certFile keyFile.

(** [tls.LoadX509KeyPair(certFile, keyFile)], by the error it returns. *)
Variable LoadX509KeyPair : string -> string -> option error.

(** [Server.validateInit] *)
Definition validateInit (s : Server) : option error :=
  if tlsEnabled s then
    if String.eqb (certFile s) EmptyString || String.eqb (keyFile s) EmptyString
    then Some (ErrorString
      "when TLS is enabled, both cert file and key file must be specified")
    else LoadX509KeyPair (certFile s) (keyFile s)
  else None.

(** [NewServer(addr, handler, opts...)] *)
Definition NewServer (addr : string) (handler : Handler) (opts : list Option)
  : Server + error :=
  let addr := if String.eqb addr EmptyString then httpDefaultAddr else addr in
  let srv :=
    mkServer false
      (mkHttpServer addr handler httpDefaultReadTimeout httpDefaultWriteTimeout)
      false EmptyString EmptyString in
  let srv := foldl (fun srv opt => opt srv) srv opts in
  match validateInit srv with
  | Some err => inr err
  | None => inl srv
  end.

(** A goroutine started by [Start], inside [ListenAndServe] or
    [ListenAndServeTLS]. *)
Record serveLoop : Type := mkLoop {
  loop_tls : bool;
  loop_fullAddr : string
}.

(** What the wrapped [http.Server] answers when it is shut down: the error of
    closing its listeners, and how long its open connections need to go idle
    ([None]: they do not). *)
Record runtime : Type := mkRuntime {
  lnerr : option error;
  drain : option Z
}.

(** [http.Server.Shutdown(ctx)] for a context with a timeout: the error of
    closing the listeners when every connection went idle before the context
    expired, the error of the context otherwise. *)
Definition Shutdown (timeout : Z) (rt : runtime) : option error :=
  match drain rt with
  | Some t => if t <? timeout then lnerr rt else Some DeadlineExceeded
  | None => Some DeadlineExceeded
  end.

(** The handle, shared by its callers and the serve goroutines, with what the
    calls did outside it: the addresses [validateStart] probed, the serve
    goroutines still running, the timeouts [Shutdown] was called with, and
    the errors sent to the root logger. *)
Record World : Type := mkWorld {
  handle : Server;
  probed : list string;
  loops : list serveLoop;
  shutdowns : list Z;
  logged : list error
}.

Definition set_handle (s : Server) (w : World) : World :=
  mkWorld s (probed w) (loops w) (shutdowns w) (logged w).

(** How a call ends: with the error it returns ([None] is [nil]) or in a
    panic. *)
Inductive outcome : Type :=
| Returns (err : option error)
| Panics (msg : string).

(** [Server.validateStart]: [net.Listen("tcp", s.srv.Addr)] answers
    [listen]; a listener that was opened is closed again. *)
Definition validateStart (listen : option error) (w : World)
  : option error * World :=
  (listen,
   mkWorld (handle w) (probed w ++ [Addr (srv (handle w))]) (loops w)
     (shutdowns w) (logged w)).

(** [Server.Start]; [listen] is what the probe of the port answers. *)
Definition Start (listen : option error) (w : World) : outcome * World :=
  if running (handle w) then (Returns None, w)
  else
    let '(err, w) := validateStart listen w in
    match err with
    | Some e => (Returns (Some e), w)
    | None =>
        let fullAddr := Addr (srv (handle w)) in
        match fullAddr with
        | EmptyString => (Panics "index out of range [0] with length 0", w)
        | String c0 _ =>
            let fullAddr :=
              if Ascii.eqb c0 ":" then "0.0.0.0" +:+ Addr (srv (handle w))
              else fullAddr in
            let s := set_running true (handle w) in
            (Returns None,
             mkWorld s (probed w)
               (loops w ++ [mkLoop (tlsEnabled s) fullAddr])
               (shutdowns w) (logged w))
        end
    end.

(** The rest of a serve goroutine, the [i]-th of those running: its
    [ListenAndServe] or [ListenAndServeTLS] call returns [err]. *)
Definition serveReturns (i : nat) (err : option error) (w : World) : World :=
  match loops w !! i with
  | None => w
  | Some _ =>
      let w := mkWorld (handle w) (probed w) (delete i (loops w))
                 (shutdowns w) (logged w) in
      match err with
      | Some e =>
          let w := set_handle (set_running false (handle w)) w in
          if error_eqb e ErrServerClosed then w
          else mkWorld (handle w) (probed w) (loops w) (shutdowns w)
                 (logged w ++ [e])
      | None => w
      end
  end.

(** [Server.Stop]; [rt] is the state of the wrapped server at the call. *)
Definition Stop (rt : runtime) (w : World) : outcome * World :=
  if negb (running (handle w)) then (Returns None, w)
  else
    (Returns (Shutdown stopTimeout rt),
     mkWorld (handle w) (probed w) (loops w) (shutdowns w ++ [stopTimeout])
       (logged w)).

(** What can happen to a handle: a call of [Start], a call of [Stop], or a
    serve goroutine coming back from its listen call. *)
Inductive event : Type :=
| CallStart (listen : option error)
| CallStop (rt : runtime)
| ServeReturns (i : nat) (err : option error).

Definition exec (e : event) (w : World) : World :=
  match e with
  | CallStart listen => snd (Start listen w)
  | CallStop rt => snd (Stop rt w)
  | ServeReturns i err => serveReturns i err w
  end.

(** The world around a handle that [NewServer] has just returned. *)
Definition new_World (s : Server) : World := mkWorld s [] [] [] [].

(** A history of a handle: the events in the order they happen. *)
Definition run (events : list event) (w : World) : World :=
  foldl (fun w e => exec e w) w events.

(** What stays true of the world around the handle [s] through its life:
    the configuration is that of [s]; there is at most one serve goroutine,
    and none while the running flag is clear; and a serve goroutine is the
    one [Start] makes for [s]. *)
Definition lifecycle_inv (s : Server) (w : World) : Prop :=
  srv (handle w) = srv s ∧
  tlsEnabled (handle w) = tlsEnabled s ∧
  certFile (handle w) = certFile s ∧
  keyFile (handle w) = keyFile s ∧
  (length (loops w) <= 1)%nat ∧
  (running (handle w) = false -> loops w = []) ∧
  (forall l, l ∈ loops w ->
     loop_tls l = tlsEnabled s ∧
     loop_fullAddr l =
       match Addr (srv s) with
       | String c0 _ =>
           if Ascii.eqb c0 ":" then "0.0.0.0" +:+ Addr (srv s)
           else Addr (srv s)
       | EmptyString => EmptyString
       end).

(** The address a serve goroutine logs for the handle. *)
Definition fullAddr (s : Server) : string :=
  match Addr (srv s) with
  | String c0 _ =>
      if Ascii.eqb c0 ":" then "0.0.0.0" +:+ Addr (srv s) else Addr (srv s)
  | EmptyString => EmptyString
  end.

End WithHandler.

Arguments Addr {Handler} h.
Arguments running {Handler} s.
Arguments srv {Handler} s.
Arguments tlsEnabled {Handler} s.
Arguments certFile {Handler} s.
Arguments keyFile {Handler} s.
Arguments handle {Handler} w.
Arguments probed {Handler} w.
Arguments loops {Handler} w.
Arguments shutdowns {Handler} w.
Arguments logged {Handler} w.
Arguments Start {Handler} listen w.
Arguments Stop {Handler} rt w.
Arguments exec {Handler} e w.
Arguments serveReturns {Handler} i err w.
Arguments new_World {Handler} s.
Arguments TLS {Handler} certFile keyFile _.
Arguments Timeouts {Handler} readTimeout writeTimeout _.
Arguments NewServer {Handler} LoadX509KeyPair addr handler opts.
Arguments package_option {Handler} opt.
Arguments tls_option {Handler} opt.
Arguments run {Handler} events w.
Arguments lifecycle_inv {Handler} s w.
Arguments fullAddr {Handler} s.
Arguments ReadTimeout {Handler} h.
Arguments WriteTimeout {Handler} h.
Arguments Handler_ {Handler} h.


End Server.

(** ** The request handler of the trigger *)

Section Values.

(** Go values of dynamic type other than a string or the form map: numbers,
    booleans, slices and maps out of the JSON decoder or the flow. *)
Variable Dyn : Type.

(** [interface{}] as the handler sees it: it tests for [nil], switches on
    [string], and builds a [map[string]interface{}] whose values are all
    strings for a form body. *)
Inductive any : Type :=
| Nil
| Str (s : string)
| FormMap (m : gmap string string)
| Dynamic (d : Dyn).

(** [contrib.Output], the message passed to the flow. *)
Record Output : Type := mkOutput {
  PathParams : gmap string string;
  QueryParams : gmap string string;
  Headers : gmap string string;
  Method : string;
  Content : any
}.

(** [contrib.Reply], with the fields the handler reads. *)
Record Reply : Type := mkReply {
  Code : Z;
  Data : any;
  ReplyHeaders : gmap string string
}.

End Values.

Arguments Nil {Dyn}.
Arguments Str {Dyn} s.
Arguments FormMap {Dyn} m.
Arguments Dynamic {Dyn} d.
Arguments mkOutput {Dyn}.
Arguments PathParams {Dyn} o.
Arguments QueryParams {Dyn} o.
Arguments Headers {Dyn} o.
Arguments Method {Dyn} o.
Arguments Content {Dyn} o.
Arguments mkReply {Dyn}.
Arguments Code {Dyn} r.
Arguments Data {Dyn} r.
Arguments ReplyHeaders {Dyn} r.

(** What the handler calls outside the program. *)
Class Externals (Dyn : Type) : Type := {
  (** The flow behind [trigger.Handler]: [handler.Handle(ctx, out)]. *)
  Handle : Output Dyn -> gmap string (any Dyn) + error;
  (** [Reply.FromMap], defined next to [contrib.Reply] in package [rest]. *)
  FromMap : gmap string (any Dyn) -> Reply Dyn + error;
  (** [decodeState.unmarshal] into a [*interface{}], on input the scanner
      has accepted: the value stored, and the text of the
      [UnmarshalTypeError] returned, if any (a number outside float64 gives
      one). *)
  unmarshal : list ascii -> any Dyn * option string;
  (** The encoding [json.Encoder.Encode] produces, before its newline. *)
  Marshal : any Dyn -> list ascii + error;
  (** [url.ParseQuery]: the values parsed and the first error met. *)
  ParseQuery : string -> gmap string (list string) * option error;
  (** [quoteChar] of [encoding/json], used in the text of a syntax error. *)
  quoteChar : ascii -> string
}.

(** A statement either falls through with a value, returns from the handler,
    or panics. *)
Inductive flow (A : Type) : Type :=
| Next (a : A)
| Return_
| Panic (msg : string).
Arguments Next {A} a.
Arguments Return_ {A}.
Arguments Panic {A} msg.

Section Adapter.

Context {Dyn : Type} {ext : Externals Dyn}.

Local Abbreviation any := (any Dyn).
Local Abbreviation Output := (Output Dyn).
Local Abbreviation Reply := (Reply Dyn).

(** [err.Error()] *)
Definition Error (e : error) : string :=
  match e with
  | EOF => "EOF"
  | ErrUnexpectedEOF => "unexpected EOF"
  | SyntaxError (InvalidCharacter c context) _ =>
      "invalid character " +:+ quoteChar c +:+ " " +:+ context
  | SyntaxError UnexpectedEndOfJSONInput _ => "unexpected end of JSON input"
  | DeadlineExceeded => "context deadline exceeded"
  | ErrServerClosed => "http: Server closed"
  | ErrorString text => text
  end.

(** The request body: an [io.Reader] that delivers [data] and then ends,
    cleanly ([failure = None], the reader reports [io.EOF]) or with another
    error. *)
Record Body : Type := mkBody {
  data : list ascii;
  failure : option string
}.

Definition stream_end (b : Body) : error :=
  match failure b with
  | None => EOF
  | Some text => ErrorString text
  end.

(** [io.ReadAll(body)] and [bytes.Buffer.ReadFrom(body)]: the bytes read and
    the error, where [io.EOF] is no error. *)
Definition ReadAll (b : Body) : list ascii * option error :=
  (data b, ErrorString <$> failure b).

(** [json.NewDecoder(body).Decode(&content)] on a [content] that is [nil]:
    the new content and the error. *)
Definition Decode (b : Body) : any * option error :=
  match Json.readValue (data b) (stream_end b) with
  | inr e => (Nil, Some e)
  | inl n =>
      let '(v, err) := unmarshal (take n (data b)) in (v, ErrorString <$> err)
  end.

(** [json.Unmarshal(data, &v)] on a [v] that is [nil]. *)
Definition Unmarshal (data : list ascii) : any * option error :=
  match Json.checkValid data Json.new_scanner with
  | Some e => (Nil, Some e)
  | None => let '(v, err) := unmarshal data in (v, ErrorString <$> err)
  end.

(** [*gin.Context], with what the handler reads. *)
Record Context : Type := mkContext {
  Params : list (string * string);
  Request_Header : Header.t;
  Request_Body : Body;
  Request_URL_RawQuery : string;
  Writer : Writer.t
}.

(** What one call of the handler can change: the response writer, the header
    map of the request, the message [out], and the calls made to the flow. *)
Record hstate : Type := mkState {
  st_Writer : Writer.t;
  st_RequestHeader : Header.t;
  st_out : Output;
  st_handled : list Output
}.

Definition M (A : Type) : Type := hstate -> flow A * hstate.

#[global] Instance M_ret : MRet M := fun A a st => (Next a, st).
#[global] Instance M_bind : MBind M := fun A B f m st =>
  match m st with
  | (Next a, st) => f a st
  | (Return_, st) => (Return_, st)
  | (Panic msg, st) => (Panic msg, st)
  end.

Definition return_ {A} : M A := fun st => (Return_, st).
Definition panic {A} (msg : string) : M A := fun st => (Panic msg, st).
Definition gets {A} (f : hstate -> A) : M A := fun st => (Next (f st), st).
Definition modify (f : hstate -> hstate) : M unit := fun st => (Next tt, f st).

Definition on_Writer (f : Writer.t -> Writer.t) : M unit :=
  modify (fun st =>
    mkState (f (st_Writer st)) (st_RequestHeader st) (st_out st) (st_handled st)).
Definition on_RequestHeader (f : Header.t -> Header.t) : M unit :=
  modify (fun st =>
    mkState (st_Writer st) (f (st_RequestHeader st)) (st_out st) (st_handled st)).
Definition on_out (f : Output -> Output) : M unit :=
  modify (fun st =>
    mkState (st_Writer st) (st_RequestHeader st) (f (st_out st)) (st_handled st)).

Definition set_Content (v : any) (o : Output) : Output :=
  mkOutput (PathParams o) (QueryParams o) (Headers o) (Method o) v.

(** [http.Error(c.Writer, err.Error(), http.StatusBadRequest); return] *)
Definition badRequest {A} (e : error) : M A :=
  on_Writer (fun w => http_Error w (Error e) StatusBadRequest);; return_.

(** [results, err := handler.Handle(context.Background(), out)] *)
Definition call_Handle : M (gmap string any + error) :=
  fun st =>
    (Next (Handle (st_out st)),
     mkState (st_Writer st) (st_RequestHeader st) (st_out st)
       (st_handled st ++ [st_out st])).

Definition join_values (m : gmap string (list string)) : gmap string string :=
  String.concat "," <$> m.

(** [content[key] = val[0]] for each key of the parsed form; indexing an
    empty slice panics. *)
Definition form_content (m : gmap string (list string)) : M (gmap string string) :=
  if decide (map_Forall (fun _ val => val ≠ []) m)
  then mret (omap head m)
  else panic "index out of range [0] with length 0".

(** The [switch contentType] of the handler. *)
Definition decode_body (contentType : string) (body : Body) : M unit :=
  if String.eqb contentType "application/x-www-form-urlencoded" then
    let '(buf, err) := ReadAll body in
    match err with
    | Some e => badRequest e
    | None =>
        let s := string_of_list_ascii buf in
        let '(m, err) := ParseQuery s in
        match err with
        | Some e => badRequest e
        | None =>
            content ← form_content m;
            on_out (set_Content (FormMap content))
        end
    end
  else if String.eqb contentType "application/json" then
    let '(content, err) := Decode body in
    match err with
    | Some e =>
        if error_eqb e EOF then on_out (set_Content content)
        else badRequest e
    | None => on_out (set_Content content)
    end
  else
    let '(b, err) := ReadAll body in
    match err with
    | Some e => badRequest e
    | None =>
        on_out (set_Content (Str (string_of_list_ascii b)));;
        return_
    end.

Definition is_nil (v : any) : bool :=
  match v with Nil => true | _ => false end.

(** The handler from [// add response headers] to its end. The source ranges
    over a Go map, in no fixed order; the fold below takes the keys in the
    order of [map_fold]. *)
Definition write_reply (reply : Reply) : M unit :=
  (if decide (0 < size (ReplyHeaders reply))%nat then
     on_RequestHeader (fun h =>
       map_fold (fun key value h => Header.Set_ h key value) h
         (ReplyHeaders reply))
   else mret tt);;
  let code := if Code reply =? 0 then StatusOK else Code reply in
  if negb (is_nil (Data reply)) then
    match Data reply with
    | Str t =>
        let '(_, err) := Unmarshal (list_ascii_of_string t) in
        on_Writer (fun w =>
          Writer.set_header
            (Header.Set_ (Writer.header w) "Content-Type"
               (match err with
                | Some _ => "text/plain; charset=UTF-8"
                | None => "application/json; charset=UTF-8"
                end)) w);;
        on_Writer (Writer.WriteHeader code);;
        on_Writer (Writer.Write (list_ascii_of_string t));;
        return_
    | v =>
        on_Writer (fun w =>
          Writer.set_header
            (Header.Set_ (Writer.header w) "Content-Type"
               "application/json; charset=UTF-8") w);;
        on_Writer (Writer.WriteHeader code);;
        match Marshal v with
        | inl b => on_Writer (Writer.Write (b ++ ["010"%char]))
        | inr _ => mret tt
        end;;
        return_
    end
  else
    on_Writer (Writer.WriteHeader code).

(** The message as the handler fills it before it looks at the body. *)
Definition new_Output (method : string) (c : Context) : Output :=
  let queryValues := fst (ParseQuery (Request_URL_RawQuery c)) in
  mkOutput
    (foldl (fun m param => <[param.1 := param.2]> m) ∅ (Params c))
    (join_values queryValues)
    (join_values (Request_Header c))
    method
    Nil.

(** The handler from the call of the flow to its end. *)
Definition handle_and_reply : M unit :=
  r ← call_Handle;
  match r with
  | inr e => badRequest e
  | inl results =>
      match FromMap results with
      | inr e => badRequest e
      | inl reply => write_reply reply
      end
  end.

(** The body of the function [newGinHandler] returns. *)
Definition handler_body (method : string) (c : Context) : M unit :=
  on_out (fun _ => new_Output method c);;
  let contentType := Header.Get (Request_Header c) "Content-Type" in
  decode_body contentType (Request_Body c);;
  handle_and_reply.

Definition empty_Output : Output := mkOutput ∅ ∅ ∅ EmptyString Nil.

(** [newGinHandler(rt, method, handler)(c)]: how the call ends and the state
    it leaves. The calls to the logger are left out. *)
Definition newGinHandler (method : string) (c : Context) : flow unit * hstate :=
  handler_body method c
    (mkState (Writer c) (Request_Header c) empty_Output []).

(** The state in which the handler starts on [c], once [out] is filled. *)
Definition entry (method : string) (c : Context) : hstate :=
  mkState (Writer c) (Request_Header c) (new_Output method c) [].

(** What [write_reply] does to the response writer and to the header map of
    the request, each as one function of the reply. *)
Definition reply_Writer (reply : Reply) (w : Writer.t) : Writer.t :=
  let code := if Code reply =? 0 then StatusOK else Code reply in
  let typed ct := Writer.set_header (Header.Set_ (Writer.header w) "Content-Type" ct) w in
  match Data reply with
  | Nil => Writer.WriteHeader code w
  | Str t =>
      Writer.Write (list_ascii_of_string t)
        (Writer.WriteHeader code
           (typed (match snd (Unmarshal (list_ascii_of_string t)) with
                   | Some _ => "text/plain; charset=UTF-8"
                   | None => "application/json; charset=UTF-8"
                   end)))
  | v =>
      let w := Writer.WriteHeader code (typed "application/json; charset=UTF-8") in
      match Marshal v with
      | inl b => Writer.Write (b ++ ["010"%char]) w
      | inr _ => w
      end
  end.

Definition reply_RequestHeader (reply : Reply) (h : Header.t) : Header.t :=
  if decide (0 < size (ReplyHeaders reply))%nat
  then map_fold (fun key value h => Header.Set_ h key value) h (ReplyHeaders reply)
  else h.

End Adapter.


(** ** The trigger: [Factory.New], [Initialize], [Start], [Stop] *)

Module Trigger.

(** [contrib.Settings] and [contrib.HandlerSettings], with the fields the
    trigger reads. *)
Record Settings : Type := mkSettings {
  Port : Z;
  EnableTLS : bool;
  CertFile : string;
  KeyFile : string
}.

Record HandlerSettings : Type := mkHandlerSettings {
  Method : string;
  Path : string
}.

(** [strconv.Itoa] *)
Definition Itoa (n : Z) : string := NilZero.string_of_int (Z.to_int n).

Section WithRouter.

(** gin's engine, which is also the [http.Handler] of the server, and the
    flow handlers of package [trigger]. *)
Variables (Router Handler : Type).

(** The closure [newGinHandler(t, method, handler)], by the two variables it
    captures besides the trigger. *)
Record HandlerFunc : Type := mkHandlerFunc {
  hf_method : string;
  hf_handler : Handler
}.

(** [gin.Default()], and [router.Handle(method, path, fn)], which gives the
    engine with the route added or panics. *)
Variable gin_Default : Router.
Variable router_Handle :
  Router -> string -> string -> HandlerFunc -> Router + string.

(** [strings.ToUpper] *)
Variable ToUpper : string -> string.

Variable LoadX509KeyPair : string -> string -> option error.

(** One of [ctx.GetHandlers()]: the handler, and what
    [metadata.MapToStruct(handler.Settings(), s, true)] makes of its
    settings. *)
Record HandlerConfig : Type := mkHandlerConfig {
  hc_settings : HandlerSettings + error;
  hc_handler : Handler
}.

(** The trigger; [server] is [None] while the pointer is [nil], and holds the
    handle with the world around it afterwards. *)
Record Trigger : Type := mkTrigger {
  id : string;
  settings : Settings;
  server : option (Server.World Router)
}.

Definition set_server (w : Server.World Router) (t : Trigger) : Trigger :=
  mkTrigger (id t) (settings t) (Some w).

(** [Factory.New(config)]; [mapped] is what [metadata.MapToStruct] makes of
    [config.Settings]. *)
Definition New (config_Id : string) (mapped : Settings + error)
  : Trigger + error :=
  match mapped with
  | inr err => inr err
  | inl s => inl (mkTrigger config_Id s None)
  end.

(** The loop of [Initialize] over the handlers: the engine with the routes,
    or the way [Initialize] ends inside the loop. *)
Fixpoint register (router : Router) (handlers : list HandlerConfig)
  : Router + Server.outcome :=
  match handlers with
  | [] => inl router
  | handler :: handlers =>
      match hc_settings handler with
      | inr err => inr (Server.Returns (Some err))
      | inl s =>
          let method := Method s in
          let path := Path s in
          match router_Handle router method path
                  (mkHandlerFunc (ToUpper method) (hc_handler handler)) with
          | inr msg => inr (Server.Panics msg)
          | inl router => register router handlers
          end
      end
  end.

(** [Trigger.Initialize(ctx)] with [ctx.GetHandlers() = handlers]. *)
Definition Initialize (handlers : list HandlerConfig) (t : Trigger)
  : Server.outcome * Trigger :=
  let addr := ":" +:+ Itoa (Port (settings t)) in
  match register gin_Default handlers with
  | inr out => (out, t)
  | inl router =>
      let opts :=
        if EnableTLS (settings t)
        then [Server.TLS (CertFile (settings t)) (KeyFile (settings t))]
        else [] in
      match Server.NewServer LoadX509KeyPair addr router opts with
      | inr err => (Server.Returns (Some err), t)
      | inl server => (Server.Returns None, set_server (Server.new_World server) t)
      end
  end.

(** [Trigger.Start] and [Trigger.Stop]: calls through [t.server], which
    panic on a [nil] pointer. *)
Definition Start (listen : option error) (t : Trigger)
  : Server.outcome * Trigger :=
  match server t with
  | None => (Server.Panics "invalid memory address or nil pointer dereference", t)
  | Some w => let '(out, w) := Server.Start listen w in (out, set_server w t)
  end.

Definition Stop (rt : Server.runtime) (t : Trigger)
  : Server.outcome * Trigger :=
  match server t with
  | None => (Server.Panics "invalid memory address or nil pointer dereference", t)
  | Some w => let '(out, w) := Server.Stop rt w in (out, set_server w t)
  end.

End WithRouter.

Arguments mkHandlerFunc {Handler} hf_method hf_handler.
Arguments hf_method {Handler} h.
Arguments hf_handler {Handler} h.
Arguments mkHandlerConfig {Handler} hc_settings hc_handler.
Arguments hc_settings {Handler} h.
Arguments hc_handler {Handler} h.
Arguments mkTrigger {Router} id settings server.
Arguments id {Router} t.
Arguments settings {Router} t.
Arguments server {Router} t.
Arguments New {Router} config_Id mapped.
Arguments register {Router Handler} router_Handle ToUpper router handlers.
Arguments Initialize {Router Handler} gin_Default router_Handle ToUpper
  LoadX509KeyPair handlers t.
Arguments Start {Router} listen t.
Arguments Stop {Router} rt t.

End Trigger.

(** ** Sample collaborators and requests *)

(** One set of collaborators for the examples: the flow hands back the content
    it received as the reply data, a literal unmarshals to its own text, and
    nothing fails. *)
Module Sample.

Definition ext : Externals unit := {|
  Handle := fun out => inl {[ "data" := Content out ]};
  FromMap := fun m =>
    inl (mkReply 0 (default Nil (m !! "data")) {[ "X-Trace" := "on" ]});
  unmarshal := fun b => (Str (string_of_list_ascii b), None);
  Marshal := fun _ => inl (list_ascii_of_string "null");
  ParseQuery := fun _ => (∅, None);
  quoteChar := fun c => String c EmptyString
|}.

(** A request with the one header [Content-Type: ct] and the body [body], on
    a response nobody wrote to. *)
Definition request (ct body : string) : Context :=
  mkContext [] {[ "Content-Type" := [ct] ]}
    (mkBody (list_ascii_of_string body) None) EmptyString Writer.fresh.

Definition serve (ct body : string) : flow unit * hstate :=
  newGinHandler (ext := ext) "POST" (request ct body).

(** A reply with a string as data and one header, and the state in which
    the handler would render it for a JSON request with an empty body. *)
Definition reply (t : string) : Reply unit :=
  mkReply 0 (Str t) {[ "X-Trace" := "on" ]}.

Definition state : hstate :=
  entry (ext := ext) "POST" (request "application/json" EmptyString).

(** What a client gets to see of a response: the status and the content
    type that were sent, and the body. *)
Definition client_view (w : Writer.t)
  : option Z * option (list string) * string :=
  (fst <$> Writer.wire w,
   Writer.wire w ≫= (fun sent => snd sent !! "Content-Type"),
   string_of_list_ascii (Writer.body w)).

(** A handle as [NewServer] builds it for [:9096], then marked as running or
    not. *)
Definition server (isRunning : bool) : Server.Server unit :=
  Server.mkServer unit isRunning
    (Server.mkHttpServer unit ":9096" tt Server.httpDefaultReadTimeout
       Server.httpDefaultWriteTimeout)
    false EmptyString EmptyString.

Definition world (isRunning : bool) : Server.World unit :=
  Server.new_World (server isRunning).

(** A wrapped server whose open connections need ten seconds to go idle. *)
Definition slow : Server.runtime := Server.mkRuntime None (Some (10 * Server.Second)).

(** A key pair loader that accepts every pair. *)
Definition load_ok (certFile keyFile : string) : option error := None.

(** A running handle with its one serve goroutine. *)
Definition serving : Server.World unit :=
  Server.mkWorld unit (server true) [":9096"]
    [Server.mkLoop false "0.0.0.0:9096"] [] [].

(** Collaborators whose flow fails, and collaborators whose form parser
    finds the key [a] with two values. *)
Definition ext_failing : Externals unit := {|
  Handle := fun _ => inr (ErrorString "boom");
  FromMap := FromMap (Externals := ext);
  unmarshal := unmarshal (Externals := ext);
  Marshal := Marshal (Externals := ext);
  ParseQuery := ParseQuery (Externals := ext);
  quoteChar := quoteChar (Externals := ext)
|}.

Definition ext_form : Externals unit := {|
  Handle := Handle (Externals := ext);
  FromMap := FromMap (Externals := ext);
  unmarshal := unmarshal (Externals := ext);
  Marshal := Marshal (Externals := ext);
  ParseQuery := fun _ => ({[ "a" := ["1"; "2"] ]}, None);
  quoteChar := quoteChar (Externals := ext)
|}.

(** An engine that keeps the routes it is given, a trigger for port 9096
    without TLS, and one handler set up for [GET /pets]. *)
Definition add_route (router : list (string * string)) (method path : string)
    (fn : Trigger.HandlerFunc unit) : list (string * string) + string :=
  inl (router ++ [(method, path)]).

Definition trigger : Trigger.Trigger (list (string * string)) :=
  Trigger.mkTrigger "rest" (Trigger.mkSettings 9096 false EmptyString EmptyString)
    None.

Definition handlers : list (Trigger.HandlerConfig unit) :=
  [Trigger.mkHandlerConfig (inl (Trigger.mkHandlerSettings "GET" "/pets")) tt].

Definition Initialize :=
  Trigger.Initialize (Handler := unit) [] add_route (fun method => method)
    load_ok.

(** The handle [NewServer] gives for [addr] and [opts] when every key pair
    loads. *)
Definition new_server (addr : string) (opts : list (Server.Option unit))
  : Server.Server unit :=
  match Server.NewServer load_ok addr tt opts with
  | inl s => s
  | inr _ => server false
  end.

(** A request whose body stream breaks after [body] with the error [text]. *)
Definition broken_request (ct body text : string) : Context :=
  mkContext [] {[ "Content-Type" := [ct] ]}
    (mkBody (list_ascii_of_string body) (Some text)) EmptyString Writer.fresh.

End Sample.

(** ** The claims that fail, as they are stated *)

(** [Stop] on a running handle returns no error when closing the listeners
    gave none, whatever happens to the grace period. *)
Definition Stop_ignores_expiry {Handler} (rt : Server.runtime)
    (w : Server.World Handler) : Prop :=
  Server.running (Server.handle w) = true ->
  Server.lnerr rt = None ->
  fst (Server.Stop rt w) = Server.Returns None.

(** The content type of a request is neither the form type nor JSON. *)
Definition other_content_type (c : Context) : Prop :=
  Header.Get (Request_Header c) "Content-Type"
    ≠ "application/x-www-form-urlencoded" ∧
  Header.Get (Request_Header c) "Content-Type" ≠ "application/json".

Definition declared_json (c : Context) : Prop :=
  Header.Get (Request_Header c) "Content-Type" = "application/json".

Definition declared_form (c : Context) : Prop :=
  Header.Get (Request_Header c) "Content-Type"
    = "application/x-www-form-urlencoded".

(** For a request of another content type the body becomes the content, the
    flow is not called, and the body goes back to the client. *)
Definition raw_body_sent_back {Dyn} {ext : Externals Dyn} (method : string)
    (c : Context) : Prop :=
  other_content_type c ->
  let st := snd (newGinHandler method c) in
  Content (st_out st) = Str (string_of_list_ascii (data (Request_Body c))) ∧
  st_handled st = [] ∧
  Writer.body (st_Writer st) = Writer.body (Writer c) ++ data (Request_Body c).

(** For a JSON request with a body that is not empty and does not decode, the
    handler answers 400 and does not call the flow. *)
Definition undecodable_is_BadRequest {Dyn} {ext : Externals Dyn}
    (method : string) (c : Context) : Prop :=
  declared_json c ->
  data (Request_Body c) ≠ [] ->
  snd (Decode (Request_Body c)) ≠ None ->
  let st := snd (newGinHandler method c) in
  st_handled st = [] ∧ Writer.status (st_Writer st) = StatusBadRequest.


(** * Properties of the server handle *)

Section ServerProperties.

Context {Handler : Type}.
Implicit Types (w : Server.World Handler) (s : Server.Server Handler).

Import Server.

Lemma Start_running w listen :
  running (handle w) = true -> Start listen w = (Returns None, w).
Proof. intros Hr. unfold Start. now rewrite Hr. Qed.

Lemma Stop_not_running w rt :
  running (handle w) = false -> Stop rt w = (Returns None, w).
Proof. intros Hr. unfold Stop. now rewrite Hr. Qed.

Lemma Stop_running w rt :
  running (handle w) = true ->
  Stop rt w =
    (Returns (Shutdown stopTimeout rt),
     mkWorld Handler (handle w) (probed w) (loops w)
       (shutdowns w ++ [stopTimeout]) (logged w)).
Proof. intros Hr. unfold Stop. now rewrite Hr. Qed.

Lemma Stop_handle w rt : handle (snd (Stop rt w)) = handle w.
Proof. unfold Stop. now destruct (running (handle w)). Qed.

(** The options of the package leave the running flag alone. *)
Lemma package_option_running opt s :
  package_option opt -> running (opt s) = running s.
Proof.
  intros [certFile keyFile | r wr]; unfold TLS, Timeouts; cbn.
  - now destruct (String.eqb _ _).
  - reflexivity.
Qed.

Lemma package_options_running opts s :
  Forall package_option opts ->
  running (foldl (fun srv opt => opt srv) s opts) = running s.
Proof.
  intros Hall. revert s.
  induction Hall as [|opt opts Hopt _ IH]; intros s; cbn; [reflexivity|].
  rewrite IH. now apply package_option_running.
Qed.

Lemma NewServer_not_running load addr handler opts s :
  Forall package_option opts ->
  NewServer load addr handler opts = inl s -> running s = false.
Proof.
  intros Hall. unfold NewServer.
  destruct (validateInit _ _ _) eqn:Hv; [discriminate|].
  intros [= <-]. now rewrite package_options_running.
Qed.

(** C8. [Start] on a handle that is running and [Stop] on a handle that is
    not running both return [nil] and leave the handle, and everything
    around it, as it was; a handle fresh from [NewServer] is not running, so
    [Stop] before any [Start] is such a call. *)
Theorem Start_Stop_noop w :
  (running (handle w) = true ->
     forall listen, Start listen w = (Returns None, w)) ∧
  (running (handle w) = false ->
     forall rt, Stop rt w = (Returns None, w)) ∧
  (forall load addr handler opts s rt,
     Forall package_option opts ->
     NewServer load addr handler opts = inl s ->
     Stop rt (new_World s) = (Returns None, new_World s)).
Proof.
  split; [|split].
  - intros Hr listen. now apply Start_running.
  - intros Hr rt. now apply Stop_not_running.
  - intros load addr handler opts s rt Hall Hnew.
    apply Stop_not_running. cbn.
    eapply NewServer_not_running; eauto.
Qed.

(** C10. [Stop] does not write the running flag: after [Stop] the handle is
    what it was, so a handle that was running still reads running, also when
    [Stop] returned [nil]. Of the three things that can happen to a handle,
    only a serve goroutine whose listen call returned an error takes the flag
    from true to false. And [Start] on a handle whose flag is still true
    (here: right after [Stop]) returns [nil] and probes no port and starts no
    serve goroutine. *)
Theorem Stop_leaves_running_flag w rt :
  handle (snd (Stop rt w)) = handle w ∧
  (forall e,
     running (handle w) = true ->
     running (handle (exec e w)) = false ->
     exists i err, e = ServeReturns i (Some err)) ∧
  (running (handle w) = true ->
   forall listen,
     let w' := snd (Stop rt w) in
     running (handle w') = true ∧
     Start listen w' = (Returns None, w') ∧
     probed (snd (Start listen w')) = probed w ∧
     loops (snd (Start listen w')) = loops w).
Proof.
  split; [apply Stop_handle|split].
  - intros e Hr Hoff. destruct e as [listen|rt'|i [err|]]; cbn in Hoff.
    + rewrite Start_running in Hoff by assumption. cbn in Hoff. congruence.
    + rewrite Stop_handle in Hoff. congruence.
    + eauto.
    + unfold serveReturns in Hoff.
      destruct (loops w !! i); cbn in Hoff; congruence.
  - intros Hr listen w'.
    assert (Hr' : running (handle w') = true)
      by (subst w'; now rewrite Stop_handle).
    rewrite (Start_running w' listen Hr'). cbn.
    subst w'. rewrite Stop_running by assumption. cbn. auto.
Qed.

(** C2, as amended. [Stop] on a running handle calls [Shutdown] once, with a
    deadline of five seconds, and returns what [Shutdown] returns: the error
    of closing the listeners ([nil] if there was none) when the open
    connections went idle within the five seconds, and the error of the
    expired context when they did not. *)
Theorem Stop_returns_Shutdown w rt :
  running (handle w) = true ->
  fst (Stop rt w) = Returns (Shutdown (5 * Second) rt) ∧
  shutdowns (snd (Stop rt w)) = shutdowns w ++ [5 * Second] ∧
  (forall t, drain rt = Some t -> t < 5 * Second ->
     fst (Stop rt w) = Returns (lnerr rt)) ∧
  (forall t, drain rt = Some t -> 5 * Second <= t ->
     fst (Stop rt w) = Returns (Some DeadlineExceeded)) ∧
  (drain rt = None -> fst (Stop rt w) = Returns (Some DeadlineExceeded)).
Proof.
  intros Hr. rewrite Stop_running by assumption. cbn [fst snd shutdowns].
  change stopTimeout with (5 * Second).
  split; [reflexivity|split; [reflexivity|]].
  unfold Shutdown.
  split; [|split].
  - intros t -> Hlt. now rewrite (proj2 (Z.ltb_lt _ _) Hlt).
  - intros t -> Hge. now rewrite (proj2 (Z.ltb_ge _ _) Hge).
  - now intros ->.
Qed.

(** C3, on the code. With an empty address [NewServer] sets the plain default
    before it runs the options, so the [TLS] option finds an address and
    keeps it: the handle has TLS enabled and the address [:8080], not
    [:8443]. *)
Theorem NewServer_TLS_default_addr load handler certFile keyFile s :
  NewServer load EmptyString handler [TLS certFile keyFile] = inl s ->
  tlsEnabled s = true ∧
  Addr (srv s) = httpDefaultAddr ∧
  Addr (srv s) ≠ httpDefaultTlsAddr.
Proof.
  unfold NewServer. cbn.
  match goal with |- match ?v with _ => _ end = _ -> _ => destruct v end;
    [discriminate|].
  intros [= <-]. cbn. repeat split. discriminate.
Qed.

End ServerProperties.

Lemma Start_Stop_noop_witness :
  Server.Start None (Sample.world true)
    = (Server.Returns None, Sample.world true) ∧
  Server.Stop Sample.slow (Sample.world false)
    = (Server.Returns None, Sample.world false).
Proof.
  split.
  - apply (proj1 (Start_Stop_noop (Sample.world true))). reflexivity.
  - apply (proj1 (proj2 (Start_Stop_noop (Sample.world false)))). reflexivity.
Defined.

Lemma Stop_leaves_running_flag_witness :
  Server.running
    (Server.handle (snd (Server.Stop Sample.slow (Sample.world true)))) = true.
Proof.
  apply (proj2 (proj2 (Stop_leaves_running_flag (Sample.world true) Sample.slow))
           eq_refl None).
Defined.

Lemma Stop_returns_Shutdown_witness :
  fst (Server.Stop Sample.slow (Sample.world true))
    = Server.Returns (Some DeadlineExceeded).
Proof.
  apply (proj1 (proj2 (proj2 (proj2
    (Stop_returns_Shutdown (Sample.world true) Sample.slow eq_refl))))
    (10 * Server.Second)).
  - reflexivity.
  - vm_compute. discriminate.
Defined.

(** C2, as stated, fails: the connections of [Sample.slow] outlast the grace
    period, closing the listeners gives no error, and [Stop] returns the
    error of the expired context. *)
Lemma Stop_ignores_expiry_fails :
  ~ Stop_ignores_expiry Sample.slow (Sample.world true).
Proof.
  unfold Stop_ignores_expiry. intros H.
  specialize (H eq_refl eq_refl). vm_compute in H. discriminate.
Qed.

Lemma NewServer_TLS_default_addr_witness :
  exists s,
    Server.NewServer Sample.load_ok EmptyString tt
      [Server.TLS "cert.pem" "key.pem"] = inl s ∧
    Server.Addr (Server.srv s) = ":8080".
Proof.
  eexists. split; [reflexivity|].
  apply (NewServer_TLS_default_addr Sample.load_ok tt "cert.pem" "key.pem").
  reflexivity.
Defined.

(** * Properties of the request handler *)

Section AdapterProperties.

Context {Dyn : Type} {ext : Externals Dyn}.
Implicit Types (st : @hstate Dyn) (reply : Reply Dyn) (c : Context)
  (w : Writer.t) (e : error).

(** Unfolds the monad of the handler. *)
Ltac run_M :=
  unfold badRequest, call_Handle, on_Writer, on_RequestHeader, on_out, modify,
    gets, return_, panic, mbind, mret, M_bind, M_ret in *; cbn in *.

Lemma badRequest_run {A} e st :
  badRequest (A := A) e st =
    (Return_,
     mkState (http_Error (st_Writer st) (Error e) StatusBadRequest)
       (st_RequestHeader st) (st_out st) (st_handled st)).
Proof. reflexivity. Qed.

Lemma newGinHandler_unfold method c :
  newGinHandler method c =
    match decode_body (Header.Get (Request_Header c) "Content-Type")
            (Request_Body c) (entry method c) with
    | (Next _, st) => handle_and_reply st
    | (Return_, st) => (Return_, st)
    | (Panic msg, st) => (Panic msg, st)
    end.
Proof. reflexivity. Qed.

Lemma write_reply_state reply st :
  snd (write_reply reply st) =
    mkState (reply_Writer reply (st_Writer st))
      (reply_RequestHeader reply (st_RequestHeader st))
      (st_out st) (st_handled st).
Proof.
  unfold write_reply, reply_Writer, reply_RequestHeader.
  destruct st as [w h o hd]. run_M.
  destruct (decide _); cbn;
    destruct (Data reply) as [|t|m|d]; cbn; try reflexivity;
    try (destruct (Unmarshal _) as [v [e|]]; reflexivity);
    destruct (Marshal _); reflexivity.
Qed.


Lemma header_WriteHeader code w :
  Writer.header (Writer.WriteHeader code w) = Writer.header w.
Proof.
  unfold Writer.WriteHeader.
  destruct (_ && _); [destruct (Writer.Written w)|]; reflexivity.
Qed.

Lemma header_WriteHeaderNow w :
  Writer.header (Writer.WriteHeaderNow w) = Writer.header w.
Proof.
  unfold Writer.WriteHeaderNow, Writer.wire_WriteHeader.
  destruct (Writer.Written w); [reflexivity|]. cbn.
  destruct (Writer.wire w); reflexivity.
Qed.

Lemma header_Write b w : Writer.header (Writer.Write b w) = Writer.header w.
Proof. unfold Writer.Write. cbn. apply header_WriteHeaderNow. Qed.

Lemma body_WriteHeader code w :
  Writer.body (Writer.WriteHeader code w) = Writer.body w.
Proof.
  unfold Writer.WriteHeader.
  destruct (_ && _); [destruct (Writer.Written w)|]; reflexivity.
Qed.

Lemma body_Write b w : Writer.body (Writer.Write b w) = Writer.body w ++ b.
Proof.
  unfold Writer.Write, Writer.WriteHeaderNow, Writer.wire_WriteHeader. cbn.
  destruct (Writer.Written w); [reflexivity|]. cbn.
  destruct (Writer.wire w); reflexivity.
Qed.

(** The first [Write] on a response sends the status and the headers as they
    stand. *)
Lemma wire_Write_unwritten b w :
  Writer.unwritten w ->
  Writer.wire (Writer.Write b w) = Some (Writer.status w, Writer.header w).
Proof.
  intros [Hsize Hwire].
  unfold Writer.Write, Writer.WriteHeaderNow, Writer.wire_WriteHeader,
    Writer.Written. cbn.
  rewrite Hsize. cbn. rewrite Hwire. reflexivity.
Qed.

Lemma wire_Write_cases b w :
  Writer.wire (Writer.Write b w) = Writer.wire w ∨
  Writer.wire (Writer.Write b w) = Some (Writer.status w, Writer.header w).
Proof.
  unfold Writer.Write, Writer.WriteHeaderNow, Writer.wire_WriteHeader. cbn.
  destruct (Writer.Written w); [now left|]. cbn.
  destruct (Writer.wire w); [now left|now right].
Qed.

Lemma wire_WriteHeader code w :
  Writer.wire (Writer.WriteHeader code w) = Writer.wire w.
Proof.
  unfold Writer.WriteHeader.
  destruct (_ && _); [destruct (Writer.Written w)|]; reflexivity.
Qed.

Lemma unwritten_WriteHeader code w :
  Writer.unwritten w -> Writer.unwritten (Writer.WriteHeader code w).
Proof.
  intros [Hsize Hwire]. unfold Writer.unwritten.
  rewrite wire_WriteHeader. split; [|assumption].
  unfold Writer.WriteHeader.
  destruct (_ && _); [destruct (Writer.Written w)|]; assumption.
Qed.

Lemma unwritten_set_header h w :
  Writer.unwritten w -> Writer.unwritten (Writer.set_header h w).
Proof. intros [Hsize Hwire]. split; assumption. Qed.

Lemma status_WriteHeader_unwritten code w :
  Writer.unwritten w -> 0 < code ->
  Writer.status (Writer.WriteHeader code w) = code.
Proof.
  intros [Hsize _] Hpos. unfold Writer.WriteHeader, Writer.Written.
  rewrite Hsize, (proj2 (Z.ltb_lt _ _) Hpos). cbn.
  destruct (Writer.status w =? code) eqn:E; cbn; [|reflexivity].
  now apply Z.eqb_eq.
Qed.

Lemma canonical_Content_Type :
  Header.CanonicalMIMEHeaderKey "Content-Type" = "Content-Type".
Proof. vm_compute. reflexivity. Qed.

Lemma lookup_Set_Content_Type (h : Header.t) value key :
  key ≠ "Content-Type" ->
  Header.Set_ h "Content-Type" value !! key = h !! key.
Proof.
  intros Hne. unfold Header.Set_. rewrite canonical_Content_Type.
  now rewrite lookup_insert_ne.
Qed.

(** The header map of the response changes at [Content-Type] at most. *)
Lemma reply_Writer_header reply w key :
  key ≠ "Content-Type" ->
  Writer.header (reply_Writer reply w) !! key = Writer.header w !! key.
Proof.
  intros Hne. unfold reply_Writer.
  destruct (Data reply) as [|t|m|d];
    repeat first
      [ rewrite header_Write | rewrite header_WriteHeader
      | match goal with |- context [Marshal ?v] => destruct (Marshal v) end ];
    cbn; try reflexivity; now apply lookup_Set_Content_Type.
Qed.

(** What [write_reply] sends as the header block was either sent before, or
    is the header map of the response with [Content-Type] changed at most. *)
Lemma reply_Writer_wire reply w code (h : Header.t) :
  Writer.wire (reply_Writer reply w) = Some (code, h) ->
  Writer.wire w = Some (code, h) ∨
  forall key, key ≠ "Content-Type" -> h !! key = Writer.header w !! key.
Proof.
  unfold reply_Writer.
  destruct (Data reply) as [|t|m|d].
  - rewrite wire_WriteHeader. now left.
  - match goal with |- Writer.wire (Writer.Write ?b ?w') = _ -> _ =>
      destruct (wire_Write_cases b w') as [-> | ->] end.
    + rewrite wire_WriteHeader. now left.
    + intros [= <- <-]. right. intros key Hne.
      rewrite header_WriteHeader. cbn. now apply lookup_Set_Content_Type.
  - destruct (Marshal _).
    + match goal with |- Writer.wire (Writer.Write ?b ?w') = _ -> _ =>
        destruct (wire_Write_cases b w') as [-> | ->] end.
      * rewrite wire_WriteHeader. now left.
      * intros [= <- <-]. right. intros key Hne.
        rewrite header_WriteHeader. cbn. now apply lookup_Set_Content_Type.
    + rewrite wire_WriteHeader. now left.
  - destruct (Marshal _).
    + match goal with |- Writer.wire (Writer.Write ?b ?w') = _ -> _ =>
        destruct (wire_Write_cases b w') as [-> | ->] end.
      * rewrite wire_WriteHeader. now left.
      * intros [= <- <-]. right. intros key Hne.
        rewrite header_WriteHeader. cbn. now apply lookup_Set_Content_Type.
    + rewrite wire_WriteHeader. now left.
Qed.

(** Every header of the reply ends up, under its canonical name, in the
    header map of the request. *)
Lemma fold_Set_lookup (headers : gmap string string) (h : Header.t) key value :
  headers !! key = Some value ->
  exists value',
    map_fold (fun key value h => Header.Set_ h key value) h headers
      !! Header.CanonicalMIMEHeaderKey key = Some [value'].
Proof.
  revert key value.
  apply (map_fold_weak_ind
    (fun (r : Header.t) (m : gmap string string) =>
       forall key value, m !! key = Some value ->
       exists value', r !! Header.CanonicalMIMEHeaderKey key = Some [value'])).
  - intros key value Hl. now rewrite lookup_empty in Hl.
  - intros i x m r Hfresh IH key value Hl. unfold Header.Set_.
    destruct (decide (Header.CanonicalMIMEHeaderKey i
                        = Header.CanonicalMIMEHeaderKey key)) as [Heq|Hne].
    + rewrite Heq, lookup_insert_eq. eauto.
    + rewrite lookup_insert_ne by assumption.
      destruct (decide (i = key)) as [->|Hik]; [congruence|].
      rewrite lookup_insert_ne in Hl by assumption. eauto.
Qed.

(** C1. When the reply has headers, [write_reply] sets each of them on the
    header map of the incoming request. The response writer ends as it would
    for the same reply without headers; its header map is changed at
    [Content-Type] at most, and so is the header block sent to the client. *)
Theorem reply_headers_set_on_request reply st :
  (0 < size (ReplyHeaders reply))%nat ->
  let st' := snd (write_reply reply st) in
  st_RequestHeader st' =
    map_fold (fun key value h => Header.Set_ h key value)
      (st_RequestHeader st) (ReplyHeaders reply) ∧
  (forall key value, ReplyHeaders reply !! key = Some value ->
     exists value',
       st_RequestHeader st' !! Header.CanonicalMIMEHeaderKey key
         = Some [value']) ∧
  st_Writer st' =
    st_Writer (snd (write_reply (mkReply (Code reply) (Data reply) ∅) st)) ∧
  (forall key, key ≠ "Content-Type" ->
     Writer.header (st_Writer st') !! key
       = Writer.header (st_Writer st) !! key) ∧
  (forall code h, Writer.wire (st_Writer st') = Some (code, h) ->
     Writer.wire (st_Writer st) = Some (code, h) ∨
     forall key, key ≠ "Content-Type" ->
       h !! key = Writer.header (st_Writer st) !! key).
Proof.
  intros Hsize st'. subst st'. rewrite !write_reply_state. cbn.
  unfold reply_RequestHeader. destruct (decide _); [|contradiction].
  split; [reflexivity|].
  split; [intros key value Hl; eapply fold_Set_lookup; eassumption|].
  split; [reflexivity|].
  split; [intros key Hne; now apply reply_Writer_header|].
  intros code h. apply reply_Writer_wire.
Qed.


Lemma handle_and_reply_handled st :
  st_handled (snd (handle_and_reply st)) = st_handled st ++ [st_out st].
Proof.
  unfold handle_and_reply. destruct st as [w h o hd]. run_M.
  destruct (Handle o) as [results|e]; [|reflexivity].
  destruct (FromMap results) as [reply|e]; [|reflexivity].
  now rewrite write_reply_state.
Qed.

(** When the flow answers and its answer maps to a reply, the handler ends
    with [write_reply] on that reply. *)
Lemma handle_and_reply_reply st results reply :
  Handle (st_out st) = inl results ->
  FromMap results = inl reply ->
  handle_and_reply st =
    write_reply reply
      (mkState (st_Writer st) (st_RequestHeader st) (st_out st)
         (st_handled st ++ [st_out st])).
Proof.
  intros HH HF. unfold handle_and_reply. destruct st as [w h o hd]. run_M.
  now rewrite HH, HF.
Qed.

Lemma decode_body_other contentType body st :
  contentType ≠ "application/x-www-form-urlencoded" ->
  contentType ≠ "application/json" ->
  decode_body contentType body st =
    match failure body with
    | Some text => badRequest (ErrorString text) st
    | None =>
        (Return_,
         mkState (st_Writer st) (st_RequestHeader st)
           (set_Content (Str (string_of_list_ascii (data body))) (st_out st))
           (st_handled st))
    end.
Proof.
  intros Hform Hjson. unfold decode_body.
  rewrite (proj2 (String.eqb_neq _ _) Hform), (proj2 (String.eqb_neq _ _) Hjson).
  unfold ReadAll. destruct (failure body); reflexivity.
Qed.

Lemma decode_body_json body st :
  decode_body "application/json" body st =
    match Decode body with
    | (content, Some e) =>
        if error_eqb e EOF
        then (Next tt, mkState (st_Writer st) (st_RequestHeader st)
                         (set_Content content (st_out st)) (st_handled st))
        else badRequest e st
    | (content, None) =>
        (Next tt, mkState (st_Writer st) (st_RequestHeader st)
                    (set_Content content (st_out st)) (st_handled st))
    end.
Proof.
  unfold decode_body. cbn.
  destruct (Decode body) as [content [e|]]; [destruct (error_eqb e EOF)|];
    reflexivity.
Qed.

(** C4, as amended. For a request whose content type is neither the form
    type nor JSON the handler reads the whole body and returns without
    calling the flow. When the read succeeds the body, as a string, is the
    content of the message, and nothing else changes: the handler writes no
    status, no header and no byte of a body to the response. When the read
    fails the handler answers with [http.Error] and status 400. *)
Theorem other_content_type_returns method c :
  other_content_type c ->
  let r := newGinHandler method c in
  fst r = Return_ ∧
  st_handled (snd r) = [] ∧
  (failure (Request_Body c) = None ->
     Content (st_out (snd r))
       = Str (string_of_list_ascii (data (Request_Body c))) ∧
     st_Writer (snd r) = Writer c ∧
     st_RequestHeader (snd r) = Request_Header c) ∧
  (forall text, failure (Request_Body c) = Some text ->
     st_Writer (snd r) = http_Error (Writer c) text StatusBadRequest).
Proof.
  intros [Hform Hjson] r. subst r.
  rewrite newGinHandler_unfold, decode_body_other by assumption.
  destruct (failure (Request_Body c)) as [text|].
  - rewrite badRequest_run. cbn.
    split; [reflexivity|split; [reflexivity|split; [intros [=]|]]].
    now intros ? [= <-].
  - cbn. repeat split. intros ? [=].
Qed.

Lemma Decode_empty body :
  data body = [] -> failure body = None -> Decode body = (Nil, Some EOF).
Proof.
  intros Hd Hf. unfold Decode, stream_end. rewrite Hd, Hf. reflexivity.
Qed.

(** C7. For a JSON request with a body of zero bytes the decoder reports
    [io.EOF], which the handler takes for success: the content stays [nil],
    the response is not touched before the flow is called, and the flow is
    called, once, with the message whose content is [nil]. *)
Theorem empty_json_body_handled method c :
  declared_json c ->
  data (Request_Body c) = [] ->
  failure (Request_Body c) = None ->
  decode_body "application/json" (Request_Body c) (entry method c)
    = (Next tt, entry method c) ∧
  Content (st_out (entry method c)) = Nil ∧
  st_Writer (entry method c) = Writer c ∧
  newGinHandler method c = handle_and_reply (entry method c) ∧
  st_handled (snd (newGinHandler method c)) = [new_Output method c].
Proof.
  intros Hjson Hd Hf.
  assert (Hdec : decode_body "application/json" (Request_Body c)
                   (entry method c) = (Next tt, entry method c)).
  { rewrite decode_body_json, Decode_empty by assumption. reflexivity. }
  split; [exact Hdec|]. split; [reflexivity|]. split; [reflexivity|].
  assert (Hnew : newGinHandler method c = handle_and_reply (entry method c)).
  { rewrite newGinHandler_unfold. unfold declared_json in Hjson.
    now rewrite Hjson, Hdec. }
  split; [exact Hnew|].
  rewrite Hnew, handle_and_reply_handled. reflexivity.
Qed.

End AdapterProperties.

(** * Properties of the JSON scanner *)

Section ScannerProperties.

Import Json.

Implicit Types (s : scanner) (c x : ascii) (r : scanCode).

(** Unfolds one call of a state function down to its tests. *)
Ltac unfold_step :=
  unfold apply_step in *;
  unfold do_state1, do_stateE, do_stateBeginValueOrEmpty,
    do_stateBeginStringOrEmpty in *;
  unfold do_state0, do_stateDot0, do_stateE0, do_stateESign, do_stateDot,
    do_stateNeg, do_stateBeginValue, do_stateBeginString, do_stateInString,
    do_stateInStringEsc, do_hex, do_expect in *;
  unfold do_stateEndValue, pushParseState in *;
  unfold do_stateEndTop, popParseState in *;
  unfold error_, set_step, set_endTop, set_parseState, set_err, set_bytes in *;
  cbn [step endTop parseState err bytes fst snd] in *.

(** Splits a goal about one step into the paths through the state function. *)
Ltac step_paths :=
  unfold_step;
  repeat (case_match; cbn [step endTop parseState err bytes fst snd tail] in *;
          simplify_eq).

Lemma apply_step_syntax_only s c :
  syntax_only s -> syntax_only (fst (apply_step s c)).
Proof.
  unfold syntax_only. destruct s as [f et ps er n].
  intros H. step_paths; cbn; eauto.
Qed.

Lemma do_stateEndValue_syntax_only s c :
  syntax_only s -> syntax_only (fst (do_stateEndValue s c)).
Proof.
  unfold syntax_only. destruct s as [f et ps er n].
  intros H. step_paths; cbn; eauto.
Qed.

Lemma syntax_only_the_err s : syntax_only s -> the_err s ≠ EOF.
Proof.
  unfold the_err. intros [-> | (m & o & ->)]; cbn; discriminate.
Qed.

Lemma error_eqb_EOF e : error_eqb e EOF = true <-> e = EOF.
Proof. destruct e; cbn; split; congruence. Qed.

(** [readValue] reports [io.EOF] only at the clean end of a stream that held
    nothing but white space. *)
Lemma readValue_loop_EOF buf data rerr s p :
  syntax_only s ->
  snd (readValue_loop buf data rerr s p) = inr EOF ->
  rerr = EOF ∧ nonSpace buf = false.
Proof.
  revert s p. induction data as [|c data IH]; intros s p Hs; cbn.
  - destruct (error_eqb rerr EOF) eqn:He.
    + apply error_eqb_EOF in He. subst rerr.
      destruct (apply_step s " ") as [s1 r].
      destruct (is_scanEnd r); [discriminate|].
      destruct (nonSpace buf); [discriminate|]. auto.
    + cbn. intros [= ->]. discriminate.
  - destruct (apply_step (set_bytes (bytes s + 1) s) c) as [s1 r] eqn:Hstep.
    assert (Hs1 : syntax_only s1).
    { change s1 with (fst (s1, r)). rewrite <- Hstep.
      apply apply_step_syntax_only. exact Hs. }
    destruct r; try (apply IH; exact Hs1).
    + destruct (do_stateEndValue s1 " ") as [s2 r'] eqn:Hend.
      destruct (is_scanEnd r'); [discriminate|]. apply IH.
      change s2 with (fst (s2, r')). rewrite <- Hend.
      now apply do_stateEndValue_syntax_only.
    + destruct (do_stateEndValue s1 " ") as [s2 r'] eqn:Hend.
      destruct (is_scanEnd r'); [discriminate|]. apply IH.
      change s2 with (fst (s2, r')). rewrite <- Hend.
      now apply do_stateEndValue_syntax_only.
    + discriminate.
    + cbn. intros [= He]. now apply syntax_only_the_err in He.
Qed.

Lemma readValue_EOF data rerr :
  readValue data rerr = inr EOF -> rerr = EOF ∧ nonSpace data = false.
Proof.
  unfold readValue. apply readValue_loop_EOF. now left.
Qed.

(** And it does report [io.EOF] there. *)
Lemma readValue_loop_blank buf data : forall s p,
  step s = stateBeginValue ->
  nonSpace data = false -> nonSpace buf = false ->
  snd (readValue_loop buf data EOF s p) = inr EOF.
Proof.
  induction data as [|c data IH]; intros s p Hf Hdata Hbuf.
  - destruct s as [f et ps er n]. cbn in Hf. subst f. cbn. now rewrite Hbuf.
  - cbn in Hdata. apply orb_false_elim in Hdata as [Hc Hdata].
    apply negb_false_iff in Hc.
    destruct s as [f et ps er n]. cbn in Hf. subst f.
    cbn [readValue_loop]. unfold_step. rewrite Hc.
    now apply IH.
Qed.

Lemma readValue_blank data :
  nonSpace data = false -> readValue data EOF = inr EOF.
Proof.
  intros Hdata. unfold readValue. now apply readValue_loop_blank.
Qed.

(** One step from a live state. *)
Lemma live_continues s x s1 r :
  live s -> apply_step s x = (s1, r) -> continues r = true -> live s1.
Proof.
  unfold live. destruct s as [f et ps er n]. cbn.
  intros (-> & Hf1 & Hf2 & ->) Hstep Hr.
  step_paths; cbn in *; try discriminate; try congruence; auto.
Qed.

Lemma live_scanEnd s x s1 :
  live s -> apply_step s x = (s1, scanEnd) ->
  (isSpace x = true ∧ step s1 = stateEndTop) ∨ dead s1.
Proof.
  unfold live, dead. destruct s as [f et ps er n]. cbn.
  intros (-> & Hf1 & Hf2 & ->) Hstep.
  step_paths; cbn in *; try congruence; auto.
Qed.

Lemma live_end_composite s x s1 r :
  live s -> apply_step s x = (s1, r) ->
  r = scanEndObject ∨ r = scanEndArray ->
  (parseState s1 = [] ∧ step s1 = stateEndTop) ∨
  (parseState s1 ≠ [] ∧ step s1 = stateEndValue ∧ live s1).
Proof.
  unfold live. destruct s as [f et ps er n]. cbn.
  intros (-> & Hf1 & Hf2 & ->) Hstep Hr.
  step_paths; cbn in *; destruct Hr; try congruence; auto;
    right; repeat split; congruence.
Qed.




Lemma live_space_ends s :
  live s -> endTop (fst (apply_step s " ")) = true ->
  parseState s = [] ∧
  (step s = stateEndValue ∨ number_state (step s) = true).
Proof.
  unfold live. destruct s as [f et ps er n]. cbn.
  intros (-> & Hf1 & Hf2 & ->) Hend.
  destruct f; cbn in Hend; try discriminate; try congruence;
    unfold_step; destruct ps; cbn in *; try discriminate; auto.
Qed.

Lemma ended_scanEnd s c :
  parseState s = [] ->
  step s = stateEndValue ∨
    (number_state (step s) = true ∧ continues_number c = false) ->
  snd (apply_step s c) = scanEnd.
Proof.
  destruct s as [f et ps er n]. cbn. intros -> Hf.
  destruct Hf as [-> | [Hn Hc]].
  - unfold_step. now destruct (isSpace c).
  - unfold continues_number in Hc.
    apply orb_false_elim in Hc as [Hc HE].
    apply orb_false_elim in Hc as [Hc He].
    apply orb_false_elim in Hc as [Hd Hdot].
    destruct f; try discriminate; unfold_step;
      rewrite ?Hd, ?Hdot, ?He, ?HE; cbn; now destruct (isSpace c).
Qed.

Lemma do_stateEndValue_top s :
  parseState s = [] -> snd (do_stateEndValue s " ") = scanEnd.
Proof. destruct s as [f et ps er n]. cbn. now intros ->. Qed.

Lemma do_stateEndValue_nested s :
  parseState s ≠ [] -> step s = stateEndValue ->
  do_stateEndValue s " " = (s, scanSkipSpace).
Proof.
  destruct s as [f et ps er n]. cbn. intros Hps ->.
  destruct ps; [contradiction|]. reflexivity.
Qed.

(** After an error no input is valid. *)
Lemma dead_invalid s w : dead s -> snd (checkValid_loop w s) ≠ None.
Proof.
  destruct s as [f et ps er n]. unfold dead. cbn. intros [-> Her].
  destruct w as [|x w]; cbn.
  - unfold eof. cbn. destruct er; [discriminate|contradiction].
  - discriminate.
Qed.

(** After the end of the top-level value only white space is valid. *)
Lemma top_invalid w : forall s,
  step s = stateEndTop -> nonSpace w = true ->
  snd (checkValid_loop w s) ≠ None.
Proof.
  induction w as [|x w IH]; intros s Hf Hns; [discriminate|].
  destruct s as [f et ps er n]. cbn in Hf. subst f.
  cbn in Hns. cbn [checkValid_loop]. unfold_step.
  destruct (isSpace x) eqn:Hx; cbn in Hns |- *.
  - apply IH; [reflexivity|assumption].
  - apply dead_invalid. split; [reflexivity|discriminate].
Qed.

Lemma nonSpace_last w x :
  last w = Some x -> isSpace x = false -> nonSpace w = true.
Proof.
  intros Hl Hx. unfold nonSpace. apply existsb_exists. exists x.
  split; [|now rewrite Hx].
  apply list_elem_of_In. now apply last_Some_elem_of.
Qed.

Lemma valid_end s :
  live s -> snd (checkValid_loop [] s) = None ->
  endTop (fst (apply_step s " ")) = true.
Proof.
  intros (Het & _ & _ & Her). cbn. unfold eof. rewrite Her, Het.
  destruct (endTop (fst (apply_step s " "))); [reflexivity|].
  destruct (err (fst (apply_step s " "))); discriminate.
Qed.

Lemma live_set_bytes s n : live s -> live (set_bytes n s).
Proof. destruct s. unfold live. cbn. auto. Qed.




End ScannerProperties.

(** * Properties of the handler on JSON bodies *)

Section DecoderProperties.

Context {Dyn : Type} {ext : Externals Dyn}.
Implicit Types (c : Context) (e : error) (w : Writer.t).

(** The decoder reports [io.EOF] only for a body without a byte that is not
    white space. *)
Lemma Decode_EOF body :
  snd (Decode body) = Some EOF -> Json.nonSpace (data body) = false.
Proof.
  unfold Decode.
  destruct (Json.readValue (data body) (stream_end body)) as [n|e] eqn:Hread.
  - destruct (unmarshal _) as [v [text|]]; discriminate.
  - cbn. intros [= ->]. now apply readValue_EOF in Hread.
Qed.

(** A body of white space only, like an empty one, is decoded to [io.EOF]
    and a content of [nil]. *)
Lemma Decode_blank body :
  failure body = None -> Json.nonSpace (data body) = false ->
  Decode body = (Nil, Some EOF).
Proof.
  intros Hf Hns. unfold Decode, stream_end. rewrite Hf.
  now rewrite readValue_blank.
Qed.

Lemma status_Write b w : Writer.status (Writer.Write b w) = Writer.status w.
Proof.
  unfold Writer.Write, Writer.WriteHeaderNow, Writer.wire_WriteHeader. cbn.
  destruct (Writer.Written w); [reflexivity|]. cbn.
  destruct (Writer.wire w); reflexivity.
Qed.

(** What [http.Error] sends on a response not yet sent. *)
Lemma http_Error_unwritten w text code :
  Writer.unwritten w -> 0 < code ->
  exists h,
    Writer.wire (http_Error w text code) = Some (code, h) ∧
    h !! "Content-Type" = Some ["text/plain; charset=utf-8"] ∧
    Writer.status (http_Error w text code) = code ∧
    Writer.body (http_Error w text code)
      = Writer.body w ++ list_ascii_of_string text ++ ["010"%char].
Proof.
  intros Hun Hpos. unfold http_Error.
  set (h := Header.Set_ _ "X-Content-Type-Options" _).
  assert (Hun' : Writer.unwritten (Writer.set_header h w))
    by now apply unwritten_set_header.
  exists h. split; [|split; [|split]].
  - rewrite wire_Write_unwritten by now apply unwritten_WriteHeader.
    rewrite status_WriteHeader_unwritten by assumption.
    now rewrite header_WriteHeader.
  - subst h. unfold Header.Set_.
    change (Header.CanonicalMIMEHeaderKey "X-Content-Type-Options")
      with "X-Content-Type-Options".
    rewrite lookup_insert_ne by discriminate.
    rewrite canonical_Content_Type. apply lookup_insert_eq.
  - rewrite status_Write. now apply status_WriteHeader_unwritten.
  - now rewrite body_Write, body_WriteHeader.
Qed.

(** C6, as amended. For a JSON request whose body has a byte that is not
    white space and on which the decoder reports an error, the handler
    answers with [http.Error]: status 400 and the text of the error as a
    plain-text body, and it returns without calling the flow. *)
Theorem undecodable_json_is_BadRequest method c e :
  declared_json c ->
  Json.nonSpace (data (Request_Body c)) = true ->
  snd (Decode (Request_Body c)) = Some e ->
  let r := newGinHandler method c in
  fst r = Return_ ∧
  st_handled (snd r) = [] ∧
  st_Writer (snd r) = http_Error (Writer c) (Error e) StatusBadRequest ∧
  (Writer.unwritten (Writer c) ->
   exists h,
     Writer.wire (st_Writer (snd r)) = Some (StatusBadRequest, h) ∧
     h !! "Content-Type" = Some ["text/plain; charset=utf-8"] ∧
     Writer.body (st_Writer (snd r))
       = Writer.body (Writer c) ++ list_ascii_of_string (Error e)
           ++ ["010"%char]).
Proof.
  intros Hjson Hns Hdec r. subst r.
  assert (He : error_eqb e EOF = false).
  { destruct (error_eqb e EOF) eqn:He; [|reflexivity].
    apply error_eqb_EOF in He. subst e.
    apply Decode_EOF in Hdec. congruence. }
  unfold declared_json in Hjson.
  rewrite newGinHandler_unfold, Hjson, decode_body_json.
  destruct (Decode (Request_Body c)) as [content oe]. cbn in Hdec. subst oe.
  rewrite He, badRequest_run. cbn [fst snd st_handled st_Writer entry].
  split; [reflexivity|split; [reflexivity|split; [reflexivity|]]].
  intros Hun.
  destruct (http_Error_unwritten (Writer c) (Error e) StatusBadRequest Hun)
    as (h & Hwire & Hct & _ & Hbody); [reflexivity|].
  exists h. auto.
Qed.


End DecoderProperties.

(** * The properties on the sample requests *)

Lemma reply_headers_set_on_request_witness :
  st_Writer (snd (write_reply (ext := Sample.ext) (Sample.reply "hello")
                    Sample.state))
  = st_Writer (snd (write_reply (ext := Sample.ext)
                      (mkReply 0 (Str "hello") ∅) Sample.state)).
Proof.
  apply (proj1 (proj2 (proj2
    (reply_headers_set_on_request (ext := Sample.ext) (Sample.reply "hello")
       Sample.state ltac:(vm_compute; lia))))).
Defined.

(** The header of the sample reply is on the request afterwards, and not on
    the response. *)
Example reply_header_on_request_only :
  let st := snd (write_reply (ext := Sample.ext) (Sample.reply "hello")
                   Sample.state) in
  st_RequestHeader st !! "X-Trace" = Some ["on"] ∧
  Writer.header (st_Writer st) !! "X-Trace" = None ∧
  (Writer.wire (st_Writer st) ≫= (fun sent => snd sent !! "X-Trace")) = None.
Proof. repeat split; vm_compute; reflexivity. Qed.


(** A string that is JSON goes out as [application/json], with its white
    space as it was; a string that is not goes out as [text/plain]. *)
Example string_reply_content_types :
  let sent t :=
    Sample.client_view
      (st_Writer (snd (write_reply (ext := Sample.ext) (Sample.reply t)
                         Sample.state))) in
  sent "[1, 2]"
    = (Some 200, Some ["application/json; charset=UTF-8"], "[1, 2]") ∧
  sent "hello" = (Some 200, Some ["text/plain; charset=UTF-8"], "hello").
Proof. split; vm_compute; reflexivity. Qed.

Lemma other_content_type_returns_witness :
  fst (Sample.serve "text/plain" "hi") = Return_ ∧
  st_handled (snd (Sample.serve "text/plain" "hi")) = [].
Proof.
  pose proof (other_content_type_returns (ext := Sample.ext) "POST"
                (Sample.request "text/plain" "hi")) as H.
  assert (Hother : other_content_type (Sample.request "text/plain" "hi"))
    by (split; vm_compute; discriminate).
  destruct (H Hother) as (Hflow & Hhandled & _).
  split; [exact Hflow|exact Hhandled].
Defined.

(** C4, as stated, fails: for a [text/plain] request with the body [hi] the
    flow is not called and the body is the content, but no byte of it is
    written to the response. *)
Lemma raw_body_sent_back_fails :
  ~ raw_body_sent_back (ext := Sample.ext) "POST"
      (Sample.request "text/plain" "hi").
Proof.
  unfold raw_body_sent_back. intros H.
  assert (Hother : other_content_type (Sample.request "text/plain" "hi"))
    by (split; vm_compute; discriminate).
  destruct (H Hother) as (_ & _ & Hbody).
  vm_compute in Hbody. discriminate.
Qed.

Lemma empty_json_body_handled_witness :
  st_handled (snd (Sample.serve "application/json" EmptyString))
  = [new_Output (ext := Sample.ext) "POST"
       (Sample.request "application/json" EmptyString)].
Proof.
  apply (proj2 (proj2 (proj2 (proj2
    (empty_json_body_handled (ext := Sample.ext) "POST"
       (Sample.request "application/json" EmptyString)
       ltac:(vm_compute; reflexivity) eq_refl eq_refl))))).
Defined.

Lemma undecodable_json_is_BadRequest_witness :
  fst (Sample.serve "application/json" "1e") = Return_ ∧
  st_handled (snd (Sample.serve "application/json" "1e")) = [].
Proof.
  pose proof (undecodable_json_is_BadRequest (ext := Sample.ext) "POST"
                (Sample.request "application/json" "1e") ErrUnexpectedEOF
                ltac:(vm_compute; reflexivity) ltac:(vm_compute; reflexivity)
                ltac:(vm_compute; reflexivity)) as (Hflow & Hhandled & _).
  split; [exact Hflow|exact Hhandled].
Defined.

(** C6, as stated, fails: a body of one space is not empty and the decoder
    reports an error on it, [io.EOF]; the handler takes that for an empty
    body, calls the flow and answers 200. *)
Lemma undecodable_is_BadRequest_fails :
  ~ undecodable_is_BadRequest (ext := Sample.ext) "POST"
      (Sample.request "application/json" " ").
Proof.
  unfold undecodable_is_BadRequest. intros H.
  assert (Hjson : declared_json (Sample.request "application/json" " "))
    by (vm_compute; reflexivity).
  destruct (H Hjson ltac:(vm_compute; discriminate)
              ltac:(vm_compute; discriminate)) as [Hhandled _].
  vm_compute in Hhandled. discriminate.
Qed.



(** The same body ends in status 400 with the text of [io.ErrUnexpectedEOF];
    and in the body [12] the byte after [1] extends the number. *)
Example trailing_bytes_that_extend :
  Sample.client_view (st_Writer (snd (Sample.serve "application/json" "1e")))
    = (Some 400, Some ["text/plain; charset=utf-8"],
       "unexpected EOF" +:+ String "010" EmptyString) ∧
  Content <$> st_handled (snd (Sample.serve "application/json" "12"))
    = [Str "12"].
Proof. split; vm_compute; reflexivity. Qed.

(** * More on the server handle: construction and life cycle *)

Section ServerLifecycle.

Context {Handler : Type}.
Implicit Types (w : Server.World Handler) (s : Server.Server Handler)
  (opt : Server.Option Handler) (opts : list (Server.Option Handler)).

Import Server.

Lemma package_option_Addr opt s :
  package_option opt -> Addr (srv s) ≠ EmptyString ->
  Addr (srv (opt s)) = Addr (srv s).
Proof.
  intros [certFile keyFile | r wr] Hne; unfold TLS, Timeouts; cbn;
    [|reflexivity].
  destruct (String.eqb (Addr (srv s)) EmptyString) eqn:E; [|reflexivity].
  now apply String.eqb_eq in E.
Qed.

Lemma package_options_Addr opts s :
  Forall package_option opts -> Addr (srv s) ≠ EmptyString ->
  Addr (srv (foldl (fun srv opt => opt srv) s opts)) = Addr (srv s).
Proof.
  intros Hall. revert s.
  induction Hall as [|opt opts Hopt _ IH]; intros s Hne; cbn; [reflexivity|].
  rewrite IH.
  - now apply package_option_Addr.
  - now rewrite package_option_Addr.
Qed.

Lemma NewServer_Addr_not_empty load addr handler opts s :
  Forall package_option opts ->
  NewServer load addr handler opts = inl s -> Addr (srv s) ≠ EmptyString.
Proof.
  intros Hall. unfold NewServer.
  match goal with |- match ?v with _ => _ end = _ -> _ => destruct v end;
    [discriminate|].
  intros [= <-].
  assert (Hne : (if String.eqb addr EmptyString then httpDefaultAddr else addr)
                ≠ EmptyString).
  { destruct (String.eqb addr EmptyString) eqn:E; [discriminate|].
    now apply String.eqb_neq in E. }
  now rewrite package_options_Addr.
Qed.

(** X1. Whatever options of the package are given, and in whatever order,
    a handle that [NewServer] returns has the address it was called with, or
    [:8080] when that was empty; its address is never empty. *)
Theorem NewServer_address load addr handler opts s :
  Forall package_option opts ->
  NewServer load addr handler opts = inl s ->
  Addr (srv s) = (if String.eqb addr EmptyString then httpDefaultAddr else addr) ∧
  Addr (srv s) ≠ EmptyString.
Proof.
  intros Hall. unfold NewServer.
  match goal with |- match ?v with _ => _ end = _ -> _ => destruct v end;
    [discriminate|].
  intros [= <-].
  assert (Hne : (if String.eqb addr EmptyString then httpDefaultAddr else addr)
                ≠ EmptyString).
  { destruct (String.eqb addr EmptyString) eqn:E; [discriminate|].
    now apply String.eqb_neq in E. }
  rewrite package_options_Addr by assumption. cbn. auto.
Qed.

Lemma TLS_fields certFile keyFile s :
  tlsEnabled (TLS certFile keyFile s) = true /\
  Server.certFile (TLS certFile keyFile s) = certFile /\
  Server.keyFile (TLS certFile keyFile s) = keyFile.
Proof. unfold TLS. cbn. now destruct (String.eqb _ _). Qed.


(** X2. With the [TLS] option last, after any options of the package,
    [NewServer] checks the key material before it returns a handle: a missing
    certificate or key file name gives the fixed error, without a look at the
    files; named files that do not load give the error of the loader; and
    only files that load give a handle, with TLS enabled on these files. *)
Theorem NewServer_TLS_validated load addr handler opts certFile keyFile :
  Forall package_option opts ->
  let result := NewServer load addr handler (opts ++ [TLS certFile keyFile]) in
  (certFile = EmptyString \/ keyFile = EmptyString ->
     result = inr (ErrorString
       "when TLS is enabled, both cert file and key file must be specified")) /\
  (certFile ≠ EmptyString -> keyFile ≠ EmptyString ->
   forall e, load certFile keyFile = Some e -> result = inr e) /\
  (certFile ≠ EmptyString -> keyFile ≠ EmptyString ->
   load certFile keyFile = None ->
   exists s, result = inl s /\ tlsEnabled s = true /\
             Server.certFile s = certFile /\ Server.keyFile s = keyFile).
Proof.
  intros Hall result. subst result. unfold NewServer.
  rewrite foldl_app. cbn [foldl].
  match goal with |- context [TLS certFile keyFile ?s0] =>
    destruct (TLS_fields certFile keyFile s0) as (Ht & Hc & Hk);
    set (s1 := TLS certFile keyFile s0) in *
  end.
  unfold validateInit. rewrite Ht, Hc, Hk.
  split; [|split].
  - intros [-> | ->]; cbn; [reflexivity|].
    now rewrite orb_true_r.
  - intros Hc' Hk' e Hload.
    rewrite (proj2 (String.eqb_neq _ _) Hc'), (proj2 (String.eqb_neq _ _) Hk').
    cbn. now rewrite Hload.
  - intros Hc' Hk' Hload.
    rewrite (proj2 (String.eqb_neq _ _) Hc'), (proj2 (String.eqb_neq _ _) Hk').
    cbn. rewrite Hload. exists s1. auto.
Qed.

(** Every handle [NewServer] returns with TLS enabled has passed the check. *)
Lemma NewServer_TLS_enabled load addr handler opts s :
  NewServer load addr handler opts = inl s -> tlsEnabled s = true ->
  certFile s ≠ EmptyString /\ keyFile s ≠ EmptyString /\
  load (certFile s) (keyFile s) = None.
Proof.
  unfold NewServer.
  match goal with |- match validateInit _ _ ?x with _ => _ end = _ -> _ =>
    set (s0 := x) end.
  destruct (validateInit _ load s0) as [e|] eqn:Hv; [discriminate|].
  intros [= <-] Ht. unfold validateInit in Hv. rewrite Ht in Hv.
  destruct (String.eqb (certFile s0) EmptyString) eqn:Ec; [discriminate|].
  destruct (String.eqb (keyFile s0) EmptyString) eqn:Ek; [discriminate|].
  cbn in Hv. apply String.eqb_neq in Ec, Ek. auto.
Qed.

Lemma tls_option_timeouts opt s :
  tls_option opt ->
  ReadTimeout (srv (opt s)) = ReadTimeout (srv s) /\
  WriteTimeout (srv (opt s)) = WriteTimeout (srv s).
Proof.
  intros (c & k & ->). unfold TLS. cbn.
  now destruct (String.eqb _ _).
Qed.

Lemma tls_options_timeouts opts s :
  Forall tls_option opts ->
  ReadTimeout (srv (foldl (fun srv opt => opt srv) s opts)) = ReadTimeout (srv s) /\
  WriteTimeout (srv (foldl (fun srv opt => opt srv) s opts)) = WriteTimeout (srv s).
Proof.
  intros Hall. revert s.
  induction Hall as [|opt opts Hopt _ IH]; intros s; cbn; [auto|].
  destruct (IH (opt s)) as [-> ->]. now apply tls_option_timeouts.
Qed.

(** X3. The timeouts of a handle are those of the last [Timeouts] option
    given, whatever came before it, and sixty seconds each when no
    [Timeouts] option is given. *)
Theorem NewServer_timeouts load addr handler s :
  (forall opts, Forall tls_option opts ->
     NewServer load addr handler opts = inl s ->
     ReadTimeout (srv s) = 60 * Second /\ WriteTimeout (srv s) = 60 * Second) /\
  (forall opts1 readTimeout writeTimeout opts2, Forall tls_option opts2 ->
     NewServer load addr handler (opts1 ++ Timeouts readTimeout writeTimeout :: opts2)
       = inl s ->
     ReadTimeout (srv s) = readTimeout /\ WriteTimeout (srv s) = writeTimeout).
Proof.
  split.
  - intros opts Hall. unfold NewServer.
    match goal with |- match ?v with _ => _ end = _ -> _ => destruct v end;
      [discriminate|].
    intros [= <-].
    match goal with |- context [foldl ?f ?s0 opts] =>
      destruct (tls_options_timeouts opts s0 Hall) as [H1 H2] end.
    split; [exact H1|exact H2].
  - intros opts1 r wr opts2 Hall. unfold NewServer.
    match goal with |- match ?v with _ => _ end = _ -> _ => destruct v end;
      [discriminate|].
    intros [= <-]. rewrite foldl_app. cbn [foldl].
    match goal with |- context [foldl ?f ?s0 opts2] =>
      destruct (tls_options_timeouts opts2 s0 Hall) as [H1 H2] end.
    split; [exact H1|exact H2].
Qed.

Lemma lifecycle_inv_same s w w' :
  lifecycle_inv s w -> handle w' = handle w -> loops w' = loops w ->
  lifecycle_inv s w'.
Proof. unfold lifecycle_inv. intros Hinv -> ->. exact Hinv. Qed.

Lemma lifecycle_inv_idle s w (h : Server.Server Handler) p sd lg :
  lifecycle_inv s w ->
  srv h = srv (handle w) -> tlsEnabled h = tlsEnabled (handle w) ->
  certFile h = certFile (handle w) -> keyFile h = keyFile (handle w) ->
  lifecycle_inv s (mkWorld Handler h p [] sd lg).
Proof.
  intros (Hsrv & Htls & Hcert & Hkey & _) H1 H2 H3 H4.
  unfold lifecycle_inv. cbn. split_and!; try congruence; auto.
  intros l Hin. now apply elem_of_nil in Hin.
Qed.

Lemma lifecycle_inv_exec s w e :
  Addr (srv s) ≠ EmptyString ->
  lifecycle_inv s w -> lifecycle_inv s (exec e w).
Proof.
  intros Hne Hinv.
  destruct e as [listen | rt | i err]; cbn [exec].
  - unfold Start. destruct (running (handle w)) eqn:Hr; cbn; [exact Hinv|].
    destruct listen as [e|]; cbn.
    { eapply lifecycle_inv_same; [exact Hinv|reflexivity..]. }
    destruct Hinv as (Hsrv & Htls & Hcert & Hkey & Hlen & Hoff & Hloops).
    specialize (Hoff Hr).
    assert (Haddr : Addr (srv (handle w)) = Addr (srv s)) by now rewrite Hsrv.
    destruct (Addr (srv (handle w))) as [|c0 rest] eqn:Ha; [congruence|].
    cbn. rewrite Hoff. unfold lifecycle_inv. cbn.
    split_and!; auto; try discriminate.
    intros l Hin. apply list_elem_of_singleton in Hin. subst l. cbn.
    rewrite <- Haddr. auto.
  - unfold Stop. destruct (running (handle w)) eqn:Hr; cbn; [|exact Hinv].
    eapply lifecycle_inv_same; [exact Hinv|reflexivity..].
  - unfold serveReturns. destruct (loops w !! i) as [l|] eqn:Hl; [|exact Hinv].
    assert (Hdel : delete i (loops w) = []).
    { destruct Hinv as (_ & _ & _ & _ & Hlen & _).
      destruct (loops w) as [|l0 [|l1 ls]]; [discriminate| |cbn in Hlen; lia].
      destruct i; [reflexivity|discriminate]. }
    rewrite Hdel.
    destruct err as [e|]; [destruct (error_eqb e ErrServerClosed)|]; cbn;
      eapply lifecycle_inv_idle; try exact Hinv; reflexivity.
Qed.

Lemma lifecycle_inv_new s :
  running s = false -> lifecycle_inv s (new_World s).
Proof.
  intros Hr. unfold lifecycle_inv. cbn. split_and!; auto.
  intros l Hin. now apply elem_of_nil in Hin.
Qed.

Lemma lifecycle_inv_run s events : forall w,
  Addr (srv s) ≠ EmptyString ->
  lifecycle_inv s w -> lifecycle_inv s (run events w).
Proof.
  unfold run. induction events as [|e events IH]; intros w Hne Hinv;
    cbn; [exact Hinv|].
  apply IH; [exact Hne|]. now apply lifecycle_inv_exec.
Qed.

(** X4. Around a handle that [NewServer] returned for options of the
    package, after any sequence of [Start] calls, [Stop] calls and returns of
    serve goroutines: the configuration of the handle is as constructed, at
    most one serve goroutine exists, none exists while the running flag is
    clear, and a serve goroutine that exists serves the TLS mode of the
    handle and logs its address ([0.0.0.0] put before an address that starts
    with a colon). *)
Theorem lifecycle_invariant load addr handler opts s events :
  Forall package_option opts ->
  NewServer load addr handler opts = inl s ->
  let w := run events (new_World s) in
  srv (handle w) = srv s ∧
  tlsEnabled (handle w) = tlsEnabled s ∧
  (length (loops w) <= 1)%nat ∧
  (running (handle w) = false -> loops w = []) ∧
  (forall l, l ∈ loops w ->
     loop_tls l = tlsEnabled s ∧ loop_fullAddr l = fullAddr s).
Proof.
  intros Hall Hnew w.
  pose proof (NewServer_Addr_not_empty _ _ _ _ _ Hall Hnew) as Hne.
  pose proof (NewServer_not_running _ _ _ _ _ Hall Hnew) as Hr.
  destruct (lifecycle_inv_run s events (new_World s) Hne
              (lifecycle_inv_new s Hr))
    as (Hsrv & Htls & _ & _ & Hlen & Hoff & Hloops).
  split_and!; auto.
Qed.

(** X5. On such a handle, after any such history, [Start] does not panic: it
    returns [nil] or the error of the port probe. It returns [nil] without
    any effect when the flag is set, and otherwise probes exactly the
    address of the handle. *)
Theorem Start_never_panics load addr handler opts s events listen :
  Forall package_option opts ->
  NewServer load addr handler opts = inl s ->
  let w := run events (new_World s) in
  (fst (Start listen w) = Returns None ∨ fst (Start listen w) = Returns listen) ∧
  (running (handle w) = false ->
     fst (Start listen w) = Returns listen ∧
     probed (snd (Start listen w)) = probed w ++ [Addr (srv s)] ∧
     running (handle (snd (Start listen w))) = negb (bool_decide (is_Some listen))).
Proof.
  intros Hall Hnew w.
  pose proof (NewServer_Addr_not_empty _ _ _ _ _ Hall Hnew) as Hne.
  pose proof (NewServer_not_running _ _ _ _ _ Hall Hnew) as Hr.
  destruct (lifecycle_inv_run s events (new_World s) Hne
              (lifecycle_inv_new s Hr))
    as (Hsrv & _).
  fold w in Hsrv. clearbody w.
  unfold Start. destruct (running (handle w)) eqn:Hrun; cbn.
  { split; [now left|discriminate]. }
  rewrite Hsrv.
  destruct listen as [e|]; cbn.
  { split; [now right|]. intros _. repeat split. exact Hrun. }
  destruct (Addr (srv s)) as [|c0 rest] eqn:Ha; [contradiction|]. cbn.
  split; [now left|]. intros _. repeat split.
Qed.

(** X6. When the serve goroutine of a running handle returns with an error,
    the flag is cleared and no serve goroutine is left; the error goes to the
    logger unless it is [http.ErrServerClosed]; and the handle can be started
    again: the next [Start] with a free port returns [nil], sets the flag and
    starts one serve goroutine. *)
Theorem serve_exit_then_restart w l err :
  running (handle w) = true ->
  loops w = [l] ->
  Addr (srv (handle w)) ≠ EmptyString ->
  let w1 := serveReturns 0 (Some err) w in
  running (handle w1) = false ∧
  loops w1 = [] ∧
  logged w1 =
    (if error_eqb err ErrServerClosed then logged w else logged w ++ [err]) ∧
  fst (Start None w1) = Returns None ∧
  running (handle (snd (Start None w1))) = true ∧
  loops (snd (Start None w1))
    = [mkLoop (tlsEnabled (handle w)) (fullAddr (handle w))].
Proof.
  intros Hr Hl Hne w1. subst w1. unfold serveReturns. rewrite Hl. cbn.
  unfold fullAddr.
  destruct (Addr (srv (handle w))) as [|c0 rest] eqn:Ha; [contradiction|].
  destruct (error_eqb err ErrServerClosed); cbn; unfold Start; cbn;
    rewrite Ha; cbn; split_and!; reflexivity.
Qed.

End ServerLifecycle.

(** * Properties of the trigger *)

Section TriggerProperties.

Context {Router Handler : Type}.
Variable gin_Default : Router.
Variable router_Handle :
  Router -> string -> string -> Trigger.HandlerFunc Handler -> Router + string.
Variable ToUpper : string -> string.
Variable load : string -> string -> option error.

Implicit Types (t : Trigger.Trigger Router)
  (handlers : list (Trigger.HandlerConfig Handler)).

Local Abbreviation Initialize :=
  (Trigger.Initialize gin_Default router_Handle ToUpper load).
Local Abbreviation register := (Trigger.register router_Handle ToUpper).

(** The address [Initialize] builds from the port. *)
Local Abbreviation port_addr t :=
  (":" +:+ Trigger.Itoa (Trigger.Port (Trigger.settings t))).

(** The loop over the handlers ends [Initialize] with an error or a panic
    only. *)
Lemma register_not_nil handlers : forall router,
  register router handlers ≠ inr (Server.Returns None).
Proof.
  induction handlers as [|h hs IH]; intros r; cbn; [discriminate|].
  destruct (Trigger.hc_settings h); [|discriminate].
  destruct (router_Handle _ _ _ _); [apply IH|discriminate].
Qed.

Lemma Initialize_nil_server handlers t :
  fst (Initialize handlers t) = Server.Returns None ->
  exists s,
    snd (Initialize handlers t)
      = Trigger.mkTrigger (Trigger.id t) (Trigger.settings t)
          (Some (Server.new_World s)) ∧
    Server.Addr (Server.srv s) = port_addr t ∧
    Server.running s = false ∧
    Server.tlsEnabled s = Trigger.EnableTLS (Trigger.settings t).
Proof.
  unfold Trigger.Initialize.
  destruct (register gin_Default handlers) as [router|out] eqn:Hreg; cbn.
  2:{ intros ->. now apply register_not_nil in Hreg. }
  destruct (Server.NewServer load _ router _) as [s|e] eqn:Hnew; cbn;
    [intros _|discriminate].
  exists s. split; [reflexivity|].
  unfold Server.NewServer in Hnew.
  destruct (Trigger.EnableTLS (Trigger.settings t)); cbn in Hnew.
  - match type of Hnew with match ?v with _ => _ end = _ =>
      destruct v end; [discriminate|].
    injection Hnew as <-. cbn. auto.
  - injection Hnew as <-. cbn. auto.
Qed.

(** X7. When [Initialize] returns [nil], the trigger holds a handle that is
    not running, built over the engine with all the routes, at the address
    [:] followed by the port in decimal, with the default timeouts, and with
    TLS as the settings say; with TLS enabled, both file names of the
    settings are not empty and the key pair has loaded. *)
Theorem Initialize_server handlers t :
  fst (Initialize handlers t) = Server.Returns None ->
  exists router s,
    register gin_Default handlers = inl router ∧
    snd (Initialize handlers t)
      = Trigger.mkTrigger (Trigger.id t) (Trigger.settings t)
          (Some (Server.new_World s)) ∧
    Server.Handler_ (Server.srv s) = router ∧
    Server.Addr (Server.srv s) = port_addr t ∧
    Server.running s = false ∧
    Server.ReadTimeout (Server.srv s) = 60 * Server.Second ∧
    Server.WriteTimeout (Server.srv s) = 60 * Server.Second ∧
    Server.tlsEnabled s = Trigger.EnableTLS (Trigger.settings t) ∧
    (Trigger.EnableTLS (Trigger.settings t) = true ->
       Server.certFile s = Trigger.CertFile (Trigger.settings t) ∧
       Server.keyFile s = Trigger.KeyFile (Trigger.settings t) ∧
       Server.certFile s ≠ EmptyString ∧ Server.keyFile s ≠ EmptyString ∧
       load (Server.certFile s) (Server.keyFile s) = None).
Proof.
  unfold Trigger.Initialize.
  destruct (register gin_Default handlers) as [router|out] eqn:Hreg; cbn.
  2:{ intros ->. now apply register_not_nil in Hreg. }
  destruct (Server.NewServer load _ router _) as [s|e] eqn:Hnew; cbn;
    [intros _|discriminate].
  exists router, s. split; [reflexivity|]. split; [reflexivity|].
  destruct (Trigger.EnableTLS (Trigger.settings t)) eqn:Htls.
  - pose proof Hnew as Hnew'.
    unfold Server.NewServer in Hnew. cbn in Hnew.
    match type of Hnew with match ?v with _ => _ end = _ =>
      destruct v end; [discriminate|].
    injection Hnew as <-. cbn.
    assert (Ht : Server.tlsEnabled
              (Server.mkServer Router false
                 (Server.mkHttpServer Router (port_addr t) router
                    Server.httpDefaultReadTimeout Server.httpDefaultWriteTimeout)
                 true (Trigger.CertFile (Trigger.settings t))
                 (Trigger.KeyFile (Trigger.settings t))) = true)
      by reflexivity.
    destruct (NewServer_TLS_enabled _ _ _ _ _ Hnew' Ht) as (Hc & Hk & Hl).
    split_and!; auto.
  - unfold Server.NewServer in Hnew. cbn in Hnew.
    injection Hnew as <-. cbn. split_and!; auto. discriminate.
Qed.



(** X9. A trigger fresh from [Factory.New] has no server, and [Start] and
    [Stop] on it panic on the nil pointer. After an [Initialize] that
    returned [nil], [Stop] before any [Start] returns [nil] and changes
    nothing, and [Start] with a free port returns [nil], having probed the
    address of the port once, with the handle running and one serve
    goroutine for [0.0.0.0:port] in the TLS mode of the settings. *)
Theorem Trigger_Start_after_Initialize handlers t :
  (forall config_Id s t0,
     Trigger.New (Router := Router) config_Id (inl s) = inl t0 ->
     Trigger.server t0 = None ∧
     (forall listen, exists msg,
        Trigger.Start listen t0 = (Server.Panics msg, t0)) ∧
     (forall rt, exists msg,
        Trigger.Stop rt t0 = (Server.Panics msg, t0))) ∧
  (fst (Initialize handlers t) = Server.Returns None ->
   let t1 := snd (Initialize handlers t) in
   (forall rt, Trigger.Stop rt t1 = (Server.Returns None, t1)) ∧
   fst (Trigger.Start None t1) = Server.Returns None ∧
   exists w,
     Trigger.server (snd (Trigger.Start None t1)) = Some w ∧
     Server.running (Server.handle w) = true ∧
     Server.probed w = [port_addr t] ∧
     Server.loops w =
       [Server.mkLoop (Trigger.EnableTLS (Trigger.settings t))
          ("0.0.0.0" +:+ port_addr t)]).
Proof.
  split.
  - intros config_Id s t0 [= <-]. cbn. split; [reflexivity|].
    split; intros; eexists; reflexivity.
  - intros Hinit t1.
    destruct (Initialize_nil_server handlers t Hinit)
      as (s & Ht1 & Haddr & Hrun & Htls).
    subst t1. rewrite Ht1.
    split; [|split].
    + intros rt. unfold Trigger.Stop. cbn.
      unfold Server.Stop. cbn. rewrite Hrun. reflexivity.
    + unfold Trigger.Start. cbn. unfold Server.Start. cbn.
      rewrite Hrun, Haddr. reflexivity.
    + unfold Trigger.Start. cbn. unfold Server.Start. cbn.
      rewrite Hrun, Haddr. cbn. eexists. split; [reflexivity|]. cbn.
      rewrite ?Haddr, ?Htls. split_and!; reflexivity.
Qed.

End TriggerProperties.

(** * More on the JSON scanner: a body that is one JSON text *)

Section ScannerExact.

Import Json.

Implicit Types (s : scanner) (c x : ascii) (r : scanCode).

(** The scanner of [readValue] comes through a valid text that does not end
    in white space without stopping before its last byte; it stops on that
    byte when the text is an object or an array, and otherwise arrives after
    it in a state in which the value may end, at what [rest] makes of it. *)
Lemma readValue_loop_through v : forall s p q buf rerr rest x,
  live s ->
  snd (checkValid_loop v s) = None ->
  last v = Some x -> isSpace x = false ->
  q = (p + length v)%nat ->
  (forall s1, parseState s1 = [] ->
     step s1 = stateEndValue ∨ number_state (step s1) = true ->
     snd (readValue_loop buf rest rerr s1 q) = inl q) ->
  snd (readValue_loop buf (v ++ rest) rerr s p) = inl q.
Proof.
  induction v as [|x0 v IH];
    intros s p q buf rerr rest x Hlive Hvalid Hlast Hx Hq Hrest;
    [discriminate|].
  cbn [checkValid_loop] in Hvalid. cbn [app readValue_loop length] in *.
  pose proof (live_set_bytes s (bytes s + 1) Hlive) as Hlive0.
  destruct (apply_step (set_bytes (bytes s + 1) s) x0) as [s1 r] eqn:Hstep.
  assert (Hmore : v ≠ [] -> last v = Some x ∧ nonSpace v = true).
  { intros Hne. destruct v as [|y v]; [contradiction|].
    split; [exact Hlast|]. eapply nonSpace_last; eassumption. }
  assert (Hgo : live s1 ->
            snd (if is_scanError r then (s1, Some (the_err s1))
                 else checkValid_loop v s1) = None ->
            snd (readValue_loop buf (v ++ rest) rerr s1 (S p)) = inl q).
  { intros Hlive1 Hvalid1. destruct v as [|y v].
    - destruct (is_scanError r); [discriminate|].
      apply valid_end in Hvalid1; [|exact Hlive1].
      apply live_space_ends in Hvalid1 as [Hps Hf]; [|exact Hlive1].
      cbn [app length] in *. rewrite Nat.add_1_r in Hq. subst q.
      now apply Hrest.
    - destruct (is_scanError r); [discriminate|].
      eapply (IH s1 (S p) q); eauto.
      cbn [length] in *. lia. }
  destruct r; cbn [is_scanError] in Hvalid;
    try (apply Hgo; [eapply live_continues; eauto|exact Hvalid]; fail).
  - destruct (live_end_composite _ _ _ _ Hlive0 Hstep (or_introl eq_refl))
      as [[Hps Hf] | (Hps & Hf & Hlive1)].
    + pose proof (do_stateEndValue_top s1 Hps) as Hend.
      destruct (do_stateEndValue s1 " ") as [s2 r']. cbn in Hend. subst r'.
      cbn. destruct v as [|y v]; [cbn in Hq; f_equal; lia|].
      exfalso. destruct (Hmore ltac:(discriminate)) as [_ Hns].
      now apply (top_invalid (y :: v) s1 Hf Hns).
    + rewrite do_stateEndValue_nested by assumption. cbn [is_scanEnd].
      now apply Hgo.
  - destruct (live_end_composite _ _ _ _ Hlive0 Hstep (or_intror eq_refl))
      as [[Hps Hf] | (Hps & Hf & Hlive1)].
    + pose proof (do_stateEndValue_top s1 Hps) as Hend.
      destruct (do_stateEndValue s1 " ") as [s2 r']. cbn in Hend. subst r'.
      cbn. destruct v as [|y v]; [cbn in Hq; f_equal; lia|].
      exfalso. destruct (Hmore ltac:(discriminate)) as [_ Hns].
      now apply (top_invalid (y :: v) s1 Hf Hns).
    + rewrite do_stateEndValue_nested by assumption. cbn [is_scanEnd].
      now apply Hgo.
  - exfalso.
    destruct (live_scanEnd _ _ _ Hlive0 Hstep) as [[Hsp Hf] | Hdead].
    + destruct v as [|y v].
      * cbn in Hlast. congruence.
      * destruct (Hmore ltac:(discriminate)) as [_ Hns].
        now apply (top_invalid (y :: v) s1 Hf Hns).
    + now apply (dead_invalid s1 v Hdead).
  - discriminate.
Qed.

(** At the clean end of the stream a value that may end does end. *)
Lemma readValue_loop_at_EOF buf s q :
  parseState s = [] ->
  step s = stateEndValue ∨ number_state (step s) = true ->
  snd (readValue_loop buf [] EOF s q) = inl q.
Proof.
  intros Hps Hf. cbn.
  assert (Hend : snd (apply_step s " ") = scanEnd).
  { apply ended_scanEnd; [exact Hps|].
    destruct Hf as [Hf|Hf]; [now left|right; split; [exact Hf|reflexivity]]. }
  destruct (apply_step s " ") as [s1 r]. cbn in Hend. now subst r.
Qed.

(** On a stream that is one valid JSON text, not ending in white space, and
    then ends, [readValue] takes the whole text. *)
Lemma readValue_exact v x :
  checkValid v new_scanner = None ->
  last v = Some x -> isSpace x = false ->
  readValue v EOF = inl (length v).
Proof.
  intros Hvalid Hlast Hx. unfold readValue.
  rewrite <- (app_nil_r v) at 2.
  apply (readValue_loop_through v (reset new_scanner) 0%nat (length v) v EOF [] x);
    try assumption; try reflexivity.
  - unfold live. cbn. repeat split; discriminate.
  - intros s1. apply readValue_loop_at_EOF.
Qed.

End ScannerExact.

(** * More on the request handler *)

Section HandlerProperties.

Context {Dyn : Type} {ext : Externals Dyn}.
Implicit Types (st : @hstate Dyn) (reply : Reply Dyn) (c : Context)
  (w : Writer.t) (e : error) (body : Body).

Ltac run_M :=
  unfold badRequest, call_Handle, on_Writer, on_RequestHeader, on_out, modify,
    gets, return_, panic, mbind, mret, M_bind, M_ret in *; cbn in *.

(** X10. When the flow returns an error, or returns results that do not map
    to a reply, the handler answers with [http.Error] and status 400 and the
    text of that error, and returns; the headers of the request stay as they
    were, and the flow has been called once. On a response not yet sent the
    client gets status 400 and the text followed by a newline. *)
Theorem flow_failure_is_BadRequest st e :
  Handle (st_out st) = inr e ∨
    (exists results, Handle (st_out st) = inl results ∧ FromMap results = inr e) ->
  handle_and_reply st =
    (Return_,
     mkState (http_Error (st_Writer st) (Error e) StatusBadRequest)
       (st_RequestHeader st) (st_out st) (st_handled st ++ [st_out st])) ∧
  (Writer.unwritten (st_Writer st) ->
   exists h,
     Writer.wire (http_Error (st_Writer st) (Error e) StatusBadRequest)
       = Some (StatusBadRequest, h) ∧
     Writer.body (http_Error (st_Writer st) (Error e) StatusBadRequest)
       = Writer.body (st_Writer st) ++ list_ascii_of_string (Error e)
           ++ ["010"%char]).
Proof.
  intros Hfail. split.
  - unfold handle_and_reply. destruct st as [w h o hd]. run_M.
    destruct Hfail as [-> | (results & -> & ->)]; reflexivity.
  - intros Hun.
    destruct (http_Error_unwritten (st_Writer st) (Error e) StatusBadRequest Hun)
      as (h & Hwire & _ & _ & Hbody); [reflexivity|].
    exists h. auto.
Qed.

(** X11. For a reply without data the handler only sets the status: the
    reply code, or 200 when the code is 0. It writes no body and no header,
    sends nothing itself, and falls through to its end. On a response not yet
    sent, a negative code leaves the status at what it was. *)
Theorem reply_without_data reply st :
  Data reply = Nil ->
  let w := st_Writer st in
  let code := if Code reply =? 0 then StatusOK else Code reply in
  let w' := st_Writer (snd (write_reply reply st)) in
  fst (write_reply reply st) = Next tt ∧
  w' = Writer.WriteHeader code w ∧
  Writer.header w' = Writer.header w ∧
  Writer.body w' = Writer.body w ∧
  Writer.wire w' = Writer.wire w ∧
  (Writer.unwritten w ->
     Writer.status w' = (if 0 <=? Code reply then code else Writer.status w)).
Proof.
  intros Hd w code w'.
  assert (Hw' : w' = Writer.WriteHeader code w).
  { subst w'. rewrite write_reply_state. cbn. unfold reply_Writer.
    now rewrite Hd. }
  split.
  { unfold write_reply. destruct st as [w0 h o hd]. run_M.
    destruct (decide _); cbn; rewrite Hd; reflexivity. }
  split; [exact Hw'|]. rewrite Hw'.
  rewrite header_WriteHeader, body_WriteHeader, wire_WriteHeader.
  split_and!; try reflexivity.
  intros Hun. subst code.
  destruct (Code reply =? 0) eqn:E0.
  - apply Z.eqb_eq in E0. rewrite E0. cbn.
    now apply status_WriteHeader_unwritten.
  - apply Z.eqb_neq in E0.
    destruct (0 <=? Code reply) eqn:Epos.
    + apply Z.leb_le in Epos. apply status_WriteHeader_unwritten; [exact Hun|lia].
    + apply Z.leb_gt in Epos. unfold Writer.WriteHeader.
      now rewrite (proj2 (Z.ltb_ge 0 (Code reply)) ltac:(lia)).
Qed.


Lemma decode_body_form body st :
  decode_body "application/x-www-form-urlencoded" body st =
    match failure body with
    | Some text => badRequest (ErrorString text) st
    | None =>
        match ParseQuery (string_of_list_ascii (data body)) with
        | (_, Some e) => badRequest e st
        | (m, None) =>
            if decide (map_Forall (fun _ val => val ≠ []) m)
            then (Next tt,
                  mkState (st_Writer st) (st_RequestHeader st)
                    (set_Content (FormMap (omap head m)) (st_out st))
                    (st_handled st))
            else (Panic "index out of range [0] with length 0", st)
        end
    end.
Proof.
  unfold decode_body, ReadAll, form_content. cbn.
  destruct (failure body); cbn; [reflexivity|].
  destruct (ParseQuery _) as [m [e|]]; [reflexivity|].
  destruct (decide _); reflexivity.
Qed.

(** X13. For a form request whose body is read and parses, the content of
    the message is a map with the keys of the parsed form, each with the
    first of its values only; the flow is called once, with that message,
    and the response is not touched before the call. *)
Theorem form_body_first_values method c m :
  declared_form c ->
  failure (Request_Body c) = None ->
  ParseQuery (string_of_list_ascii (data (Request_Body c))) = (m, None) ->
  map_Forall (fun _ val => val ≠ []) m ->
  let out := set_Content (FormMap (omap head m)) (new_Output method c) in
  newGinHandler method c
    = handle_and_reply (mkState (Writer c) (Request_Header c) out []) ∧
  st_handled (snd (newGinHandler method c)) = [out] ∧
  (forall key, is_Some (omap head m !! key) <-> is_Some (m !! key)) ∧
  (forall key v vs, m !! key = Some (v :: vs) ->
     omap head m !! key = Some v).
Proof.
  intros Hform Hf Hq Hall out.
  assert (Hnew : newGinHandler method c
                 = handle_and_reply (mkState (Writer c) (Request_Header c) out [])).
  { unfold declared_form in Hform.
    rewrite newGinHandler_unfold, Hform, decode_body_form, Hf, Hq.
    destruct (decide _); [reflexivity|contradiction]. }
  split; [exact Hnew|]. split.
  { rewrite Hnew, handle_and_reply_handled. reflexivity. }
  split.
  - intros key. rewrite lookup_omap.
    destruct (m !! key) as [[|v vs]|] eqn:Hk; cbn.
    + now apply Hall in Hk.
    + split; eauto.
    + split; intros [? [=]].
  - intros key v vs Hk. now rewrite lookup_omap, Hk.
Qed.

(** X14. For a form request whose body cannot be read, or does not parse,
    the handler answers with [http.Error] and status 400 and the text of the
    error, and returns without calling the flow. *)
Theorem form_body_error_is_BadRequest method c :
  declared_form c ->
  let r := newGinHandler method c in
  (forall text, failure (Request_Body c) = Some text ->
     r = (Return_,
          mkState (http_Error (Writer c) text StatusBadRequest)
            (Request_Header c) (new_Output method c) [])) ∧
  (forall m e,
     failure (Request_Body c) = None ->
     ParseQuery (string_of_list_ascii (data (Request_Body c))) = (m, Some e) ->
     r = (Return_,
          mkState (http_Error (Writer c) (Error e) StatusBadRequest)
            (Request_Header c) (new_Output method c) [])).
Proof.
  intros Hform r. subst r. unfold declared_form in Hform.
  rewrite newGinHandler_unfold, Hform, decode_body_form.
  split.
  - intros text ->. reflexivity.
  - intros m e -> ->. reflexivity.
Qed.

(** What the [switch] on the content type can leave behind. *)
Lemma decode_body_cases contentType body st :
  let r := decode_body contentType body st in
  st_handled (snd r) = st_handled st ∧
  st_RequestHeader (snd r) = st_RequestHeader st ∧
  (st_out (snd r) = st_out st ∨
   exists v, st_out (snd r) = set_Content v (st_out st)) ∧
  (fst r = Next tt -> st_Writer (snd r) = st_Writer st) ∧
  (st_Writer (snd r) = st_Writer st ∨
   exists text,
     fst r = Return_ ∧
     st_Writer (snd r) = http_Error (st_Writer st) text StatusBadRequest).
Proof.
  assert (Hbad : forall e,
    let r := badRequest (A := unit) e st in
    st_handled (snd r) = st_handled st ∧
    st_RequestHeader (snd r) = st_RequestHeader st ∧
    (st_out (snd r) = st_out st ∨
     exists v, st_out (snd r) = set_Content v (st_out st)) ∧
    (fst r = Next tt -> st_Writer (snd r) = st_Writer st) ∧
    (st_Writer (snd r) = st_Writer st ∨
     exists text,
       fst r = Return_ ∧
       st_Writer (snd r) = http_Error (st_Writer st) text StatusBadRequest)).
  { intros e. rewrite badRequest_run. cbn.
    split_and!; auto; [discriminate|]. right. eauto. }
  assert (Hset : forall (fl : flow unit) v,
    let r := (fl, mkState (st_Writer st) (st_RequestHeader st)
                    (set_Content v (st_out st)) (st_handled st)) in
    st_handled (snd r) = st_handled st ∧
    st_RequestHeader (snd r) = st_RequestHeader st ∧
    (st_out (snd r) = st_out st ∨
     exists v, st_out (snd r) = set_Content v (st_out st)) ∧
    (fst r = Next tt -> st_Writer (snd r) = st_Writer st) ∧
    (st_Writer (snd r) = st_Writer st ∨
     exists text,
       fst r = Return_ ∧
       st_Writer (snd r) = http_Error (st_Writer st) text StatusBadRequest)).
  { intros fl v. cbn. split_and!; eauto. }
  destruct (String.eqb contentType "application/x-www-form-urlencoded") eqn:Ef.
  { apply String.eqb_eq in Ef. subst contentType. rewrite decode_body_form.
    destruct (failure body); [apply Hbad|].
    destruct (ParseQuery _) as [m [e|]]; [apply Hbad|].
    destruct (decide _); [apply Hset|].
    cbn. split_and!; auto; discriminate. }
  destruct (String.eqb contentType "application/json") eqn:Ej.
  { apply String.eqb_eq in Ej. subst contentType. rewrite decode_body_json.
    destruct (Decode body) as [v [e|]]; [|apply Hset].
    destruct (error_eqb e EOF); [apply Hset|apply Hbad]. }
  apply String.eqb_neq in Ef, Ej. rewrite decode_body_other by assumption.
  destruct (failure body); [apply Hbad|apply Hset].
Qed.

(** X15. For every request, the handler calls the flow at most once, and the
    message of that call is the message built from the request with some
    content. When it does not call the flow, it has not touched the headers
    of the request, and the response is either untouched or an
    [http.Error] with status 400. *)
Theorem flow_called_at_most_once method c :
  let r := newGinHandler method c in
  (st_handled (snd r) = [] ∨
   exists v, st_handled (snd r) = [set_Content v (new_Output method c)]) ∧
  (st_handled (snd r) = [] ->
     fst r ≠ Next tt ∧
     st_RequestHeader (snd r) = Request_Header c ∧
     (st_Writer (snd r) = Writer c ∨
      exists text,
        st_Writer (snd r) = http_Error (Writer c) text StatusBadRequest)).
Proof.
  intros r. subst r. rewrite newGinHandler_unfold.
  pose proof (decode_body_cases
                (Header.Get (Request_Header c) "Content-Type")
                (Request_Body c) (entry method c)) as Hcases.
  cbn zeta in Hcases.
  destruct (decode_body _ _ _) as [[[]| |msg] st1];
    cbn [fst snd] in Hcases;
    destruct Hcases as (Hh & Hrh & Hout & Hnext & Hw); cbn [entry st_handled
      st_RequestHeader st_out st_Writer] in *.
  - (* the flow is called *)
    rewrite handle_and_reply_handled, Hh. cbn. split.
    + right. destruct Hout as [-> | [v ->]]; [exists Nil|exists v]; reflexivity.
    + intros [=].
  - cbn. split; [now left|]. intros _. split; [discriminate|].
    split; [exact Hrh|]. destruct Hw as [->|(text & _ & ->)]; eauto.
  - cbn. split; [now left|]. intros _. split; [discriminate|].
    split; [exact Hrh|]. destruct Hw as [->|(text & _ & ->)]; eauto.
Qed.

Lemma readValue_loop_blank_failure buf data text : forall s p,
  Json.step s = Json.stateBeginValue ->
  Json.nonSpace data = false ->
  snd (Json.readValue_loop buf data (ErrorString text) s p)
    = inr (ErrorString text).
Proof.
  induction data as [|x data IH]; intros s p Hf Hdata.
  - reflexivity.
  - cbn in Hdata. apply orb_false_elim in Hdata as [Hx Hdata].
    apply negb_false_iff in Hx.
    destruct s as [f et ps er n]. cbn in Hf. subst f.
    cbn [Json.readValue_loop].
    unfold Json.apply_step, Json.set_bytes, Json.do_stateBeginValue. cbn.
    rewrite Hx. now apply IH.
Qed.

(** X16. A JSON request whose body holds white space only is handled like
    one with an empty body: when the stream ends cleanly the flow is called
    once with a content of [nil] and the response is not touched before the
    call; when the stream fails the handler answers 400 with the text of the
    failure and does not call the flow. *)
Theorem blank_json_body method c :
  declared_json c ->
  Json.nonSpace (data (Request_Body c)) = false ->
  (failure (Request_Body c) = None ->
     newGinHandler method c = handle_and_reply (entry method c) ∧
     st_handled (snd (newGinHandler method c)) = [new_Output method c] ∧
     Content (new_Output method c) = Nil) ∧
  (forall text, failure (Request_Body c) = Some text ->
     newGinHandler method c =
       (Return_,
        mkState (http_Error (Writer c) text StatusBadRequest)
          (Request_Header c) (new_Output method c) [])).
Proof.
  intros Hjson Hblank. unfold declared_json in Hjson.
  rewrite newGinHandler_unfold, Hjson, decode_body_json.
  split.
  - intros Hf. rewrite (Decode_blank _ Hf Hblank). cbn.
    split; [reflexivity|]. split; [|reflexivity].
    now rewrite handle_and_reply_handled.
  - intros text Hf. unfold Decode, stream_end, Json.readValue. rewrite Hf.
    rewrite readValue_loop_blank_failure by (reflexivity || assumption).
    reflexivity.
Qed.

(** X17. On a body that is exactly one valid JSON text, not ending in white
    space, the decoder of the request and [json.Unmarshal] give the same
    value and the same error. Without an error the flow is called once with
    that value as content; with one, the handler answers 400 and does not
    call the flow. *)
Theorem json_document_decoded method c (x : ascii) :
  declared_json c ->
  failure (Request_Body c) = None ->
  Json.checkValid (data (Request_Body c)) Json.new_scanner = None ->
  last (data (Request_Body c)) = Some x -> Json.isSpace x = false ->
  let v := data (Request_Body c) in
  Decode (Request_Body c) = Unmarshal v ∧
  (snd (unmarshal v) = None ->
     newGinHandler method c =
       handle_and_reply
         (mkState (Writer c) (Request_Header c)
            (set_Content (fst (unmarshal v)) (new_Output method c)) []) ∧
     st_handled (snd (newGinHandler method c))
       = [set_Content (fst (unmarshal v)) (new_Output method c)]) ∧
  (forall text, snd (unmarshal v) = Some text ->
     newGinHandler method c =
       (Return_,
        mkState (http_Error (Writer c) text StatusBadRequest)
          (Request_Header c) (new_Output method c) [])).
Proof.
  intros Hjson Hf Hvalid Hlast Hx v. subst v.
  set (v := data (Request_Body c)) in *.
  assert (Hdec : Decode (Request_Body c) = Unmarshal v).
  { unfold Decode, Unmarshal, stream_end. rewrite Hf. fold v.
    rewrite (readValue_exact v x Hvalid Hlast Hx), Hvalid.
    now rewrite firstn_all. }
  split; [exact Hdec|].
  unfold declared_json in Hjson.
  rewrite newGinHandler_unfold, Hjson, decode_body_json, Hdec.
  unfold Unmarshal. rewrite Hvalid.
  destruct (unmarshal v) as [content [text|]]; cbn.
  - split; [intros [=]|]. now intros ? [= <-].
  - split; [|intros ? [=]]. intros _. split; [reflexivity|].
    now rewrite handle_and_reply_handled.
Qed.

Lemma foldl_insert_notin (ps : list (string * string)) key :
  forall m : gmap string string,
  key ∉ ps.*1 ->
  foldl (fun m param => <[param.1 := param.2]> m) m ps !! key = m !! key.
Proof.
  induction ps as [|[k v] ps IH]; intros m Hnot; cbn; [reflexivity|].
  cbn in Hnot. apply not_elem_of_cons in Hnot as [Hne Hnot].
  rewrite IH by assumption. now apply lookup_insert_ne.
Qed.

(** X18. In the message for the flow, the method is the one the route was
    registered with and the content starts as [nil]; each header of the
    request and each query parameter is there under its own key, its values
    joined with commas; and each path parameter is there with the value of
    its last occurrence. *)
Theorem new_Output_fields method c :
  Method (new_Output method c) = method ∧
  Content (new_Output method c) = Nil ∧
  (forall key,
     Headers (new_Output method c) !! key
       = String.concat "," <$> Request_Header c !! key) ∧
  (forall key,
     QueryParams (new_Output method c) !! key
       = String.concat "," <$> fst (ParseQuery (Request_URL_RawQuery c)) !! key) ∧
  (forall key,
     key ∉ (Params c).*1 -> PathParams (new_Output method c) !! key = None) ∧
  (forall params1 key value params2,
     Params c = params1 ++ (key, value) :: params2 ->
     key ∉ params2.*1 ->
     PathParams (new_Output method c) !! key = Some value).
Proof.
  unfold new_Output, join_values. cbn.
  split_and!; try reflexivity.
  - intros key. apply lookup_fmap.
  - intros key. apply lookup_fmap.
  - intros key Hnot. now rewrite foldl_insert_notin.
  - intros ps1 key value ps2 -> Hnot.
    rewrite foldl_app. cbn. rewrite foldl_insert_notin by assumption.
    apply lookup_insert_eq.
Qed.

End HandlerProperties.

(** * The further properties on the samples *)

Lemma NewServer_address_witness :
  Server.Addr (Server.srv (Sample.new_server EmptyString [Server.Timeouts 1 2]))
  = ":8080".
Proof.
  apply (proj1 (NewServer_address Sample.load_ok EmptyString tt
                  [Server.Timeouts 1 2] _
                  ltac:(repeat constructor) eq_refl)).
Defined.

Lemma NewServer_TLS_validated_witness :
  Server.NewServer Sample.load_ok ":9096" tt [Server.TLS "cert.pem" EmptyString]
  = inr (ErrorString
      "when TLS is enabled, both cert file and key file must be specified").
Proof.
  apply (proj1 (NewServer_TLS_validated Sample.load_ok ":9096" tt []
                  "cert.pem" EmptyString ltac:(constructor))).
  now right.
Defined.

Lemma NewServer_timeouts_witness :
  let s := Sample.new_server ":9096"
             [Server.Timeouts 1 2; Server.Timeouts 3 4; Server.TLS "c" "k"] in
  Server.ReadTimeout (Server.srv s) = 3 ∧ Server.WriteTimeout (Server.srv s) = 4.
Proof.
  apply (proj2 (NewServer_timeouts Sample.load_ok ":9096" tt _)
           [Server.Timeouts 1 2] 3 4 [Server.TLS "c" "k"]).
  - repeat constructor. now exists "c", "k".
  - reflexivity.
Defined.

Lemma lifecycle_invariant_witness :
  (length (Server.loops
     (Server.run [Server.CallStart None; Server.CallStop Sample.slow;
                  Server.CallStart None]
        (Server.new_World (Sample.new_server ":9096" [])))) <= 1)%nat.
Proof.
  apply (lifecycle_invariant Sample.load_ok ":9096" tt [] _ _
           ltac:(constructor) eq_refl).
Defined.

Lemma Start_never_panics_witness :
  let w := Server.run [Server.CallStart None; Server.ServeReturns 0 (Some ErrServerClosed)]
             (Server.new_World (Sample.new_server ":9096" [])) in
  fst (Server.Start (Some (ErrorString "address already in use")) w)
    = Server.Returns None ∨
  fst (Server.Start (Some (ErrorString "address already in use")) w)
    = Server.Returns (Some (ErrorString "address already in use")).
Proof.
  apply (proj1 (Start_never_panics Sample.load_ok ":9096" tt [] _
                  [Server.CallStart None;
                   Server.ServeReturns 0 (Some ErrServerClosed)]
                  (Some (ErrorString "address already in use"))
                  ltac:(constructor) eq_refl)).
Defined.

Lemma serve_exit_then_restart_witness :
  Server.logged (Server.serveReturns 0 (Some ErrServerClosed) Sample.serving) = [] ∧
  Server.logged
    (Server.serveReturns 0 (Some (ErrorString "accept failed")) Sample.serving)
    = [ErrorString "accept failed"].
Proof.
  split.
  - apply (proj1 (proj2 (proj2
      (serve_exit_then_restart Sample.serving _ ErrServerClosed
         eq_refl eq_refl ltac:(discriminate))))).
  - apply (proj1 (proj2 (proj2
      (serve_exit_then_restart Sample.serving _ (ErrorString "accept failed")
         eq_refl eq_refl ltac:(discriminate))))).
Defined.

Lemma Initialize_server_witness :
  exists router s,
    Trigger.register Sample.add_route (fun method => method) [] Sample.handlers
      = inl router ∧
    snd (Sample.Initialize Sample.handlers Sample.trigger)
      = Trigger.mkTrigger "rest" (Trigger.settings Sample.trigger)
          (Some (Server.new_World s)) ∧
    Server.Handler_ (Server.srv s) = router ∧
    Server.Addr (Server.srv s) = ":9096".
Proof.
  destruct (Initialize_server [] Sample.add_route (fun method => method)
              Sample.load_ok Sample.handlers Sample.trigger eq_refl)
    as (router & s & H1 & H2 & H3 & H4 & _).
  exists router, s. auto.
Defined.


Lemma Trigger_Start_after_Initialize_witness :
  fst (Trigger.Start None
         (snd (Sample.Initialize Sample.handlers Sample.trigger)))
  = Server.Returns None.
Proof.
  apply (proj1 (proj2 (proj2
    (Trigger_Start_after_Initialize [] Sample.add_route (fun method => method)
       Sample.load_ok Sample.handlers Sample.trigger) eq_refl))).
Defined.

Lemma flow_failure_is_BadRequest_witness :
  fst (handle_and_reply (ext := Sample.ext_failing) Sample.state) = Return_.
Proof.
  pose proof (proj1 (flow_failure_is_BadRequest (ext := Sample.ext_failing)
                       Sample.state (ErrorString "boom") (or_introl eq_refl)))
    as H.
  rewrite H. reflexivity.
Defined.

Lemma reply_without_data_witness :
  Writer.body
    (st_Writer (snd (write_reply (ext := Sample.ext) (mkReply 0 Nil ∅)
                       Sample.state)))
  = Writer.body (st_Writer Sample.state).
Proof.
  apply (proj1 (proj2 (proj2 (proj2
    (reply_without_data (ext := Sample.ext) (mkReply 0 Nil ∅) Sample.state
       eq_refl))))).
Defined.


Lemma form_body_first_values_witness :
  (omap head ({[ "a" := ["1"; "2"] ]} : gmap string (list string)) : gmap string string)
    !! "a" = Some "1".
Proof.
  apply (proj2 (proj2 (proj2
    (form_body_first_values (ext := Sample.ext_form) "POST"
       (Sample.request "application/x-www-form-urlencoded" "a=1&a=2")
       {[ "a" := ["1"; "2"] ]}
       ltac:(vm_compute; reflexivity) eq_refl eq_refl
       ltac:(apply map_Forall_singleton; discriminate))))
    "a" "1" ["2"]).
  apply lookup_singleton_eq.
Defined.

Lemma form_body_error_is_BadRequest_witness :
  fst (newGinHandler (ext := Sample.ext) "POST"
         (Sample.broken_request "application/x-www-form-urlencoded" "a=1"
            "connection reset")) = Return_.
Proof.
  rewrite (proj1 (form_body_error_is_BadRequest (ext := Sample.ext) "POST"
                    (Sample.broken_request "application/x-www-form-urlencoded"
                       "a=1" "connection reset")
                    ltac:(vm_compute; reflexivity))
             "connection reset" eq_refl).
  reflexivity.
Defined.

Lemma blank_json_body_witness :
  st_handled (snd (Sample.serve "application/json" "  "))
  = [new_Output (ext := Sample.ext) "POST"
       (Sample.request "application/json" "  ")].
Proof.
  apply (proj1 (blank_json_body (ext := Sample.ext) "POST"
                  (Sample.request "application/json" "  ")
                  ltac:(vm_compute; reflexivity) ltac:(vm_compute; reflexivity))
           eq_refl).
Defined.

Lemma json_document_decoded_witness :
  Decode (ext := Sample.ext)
    (Request_Body (Sample.request "application/json" "[1, 2]"))
  = Unmarshal (ext := Sample.ext) (list_ascii_of_string "[1, 2]").
Proof.
  apply (proj1 (json_document_decoded (ext := Sample.ext) "POST"
                  (Sample.request "application/json" "[1, 2]") "]"
                  ltac:(vm_compute; reflexivity) eq_refl
                  ltac:(vm_compute; reflexivity) eq_refl eq_refl)).
Defined.
